(** * CarePlus: the nearby-hospital pipeline of [src/App.tsx]

    A shallow embedding of the computational core of the single-page
    application: the Haversine distance ([calculateDistance], [toRad]), the
    transformation of an Overpass response into the ranked hospital list
    (the body of [fetchNearbyHospitals]) and the start-up effect of [App]
    (geolocation, one query, the four pieces of component state).

    JavaScript numbers are IEEE 754 binary64 values: they are modelled by
    Rocq's primitive floats, whose operations are specified by
    [Stdlib.Floats.FloatAxioms] in terms of [SpecFloat].  The functions of the
    [Math] object that ECMA-262 leaves implementation-approximated
    ([Math.sin], [Math.cos], [Math.atan2]) are a parameter of the development
    (class [MathHost]); a reference host is provided to run the code. *)

From Stdlib Require Import ZArith Floats Lia Bool Zpower.
From stdpp Require Import gmap strings list sorting pretty.

Set Warnings "-inexact-float".

Open Scope float_scope.

(** ** JavaScript numbers *)

(** The sign bit of a number; [NaN] counts as unsigned. *)
Definition sf_signbit (x : spec_float) : bool :=
  match x with
  | S754_zero s | S754_infinity s | S754_finite s _ _ => s
  | S754_nan => false
  end.

Definition signbit (x : float) : bool := sf_signbit (Prim2SF x).

(** [ToBoolean] on a number: [+0], [-0] and [NaN] are falsy. *)
Definition truthy_number (x : float) : bool := negb (is_zero x || is_nan x).

(** A value that is a number or [undefined] (a missing property). *)
Definition truthy_opt_number (v : option float) : bool :=
  match v with
  | Some x => truthy_number x
  | None => false
  end.

(** [ToBoolean] on a string or [undefined]: the empty string is falsy. *)
Definition truthy_opt_string (v : option string) : bool :=
  match v with
  | Some s => negb (String.eqb s "")
  | None => false
  end.

(** [ToNumber]: arithmetic on [undefined] computes with [NaN]. *)
Definition ToNumber (v : option float) : float :=
  match v with
  | Some x => x
  | None => nan
  end.

(** ** The host's [Math] object *)

Class MathHost := {
  Math_sin : float -> float;
  Math_cos : float -> float;
  Math_atan2 : float -> float -> float
}.

(** What the development assumes of the host's [Math] functions.  The first
    two are required by ECMA-262 ([Math.sin(+0)] is [+0]; [Math.atan2(+0, x)]
    is [+0] for [x > 0]); the other two hold of every engine's
    implementation: the sine is odd, and the arctangent of a point in the
    upper half plane is not negative. *)
Record ConformingHost (H : MathHost) : Prop := {
  sin_zero : Math_sin 0 = 0;
  atan2_zero : forall x, (0 <? x) = true -> Math_atan2 0 x = 0;
  sin_odd : forall x, Math_sin (- x) = - Math_sin x;
  atan2_sign : forall y x, signbit y = false -> (Math_atan2 y x <? 0) = false
}.

(** [Math.PI], the binary64 value nearest to pi. *)
Definition Math_PI : float := 0x1.921fb54442d18p+1.

(** [Math.sqrt] is the correctly rounded IEEE square root in every engine. *)
Definition Math_sqrt (x : float) : float := sqrt x.

(** ** Geo-math: [toRad] and [calculateDistance] *)

Definition toRad (value : float) : float := (value * Math_PI) / 180.

Definition calculateDistance `{MathHost} (lat1 lon1 lat2 lon2 : float) : float :=
  let R := 6371 in
  let dLat := toRad (lat2 - lat1) in
  let dLon := toRad (lon2 - lon1) in
  let a :=
    Math_sin (dLat / 2) * Math_sin (dLat / 2) +
    Math_cos (toRad lat1) * Math_cos (toRad lat2) *
    Math_sin (dLon / 2) * Math_sin (dLon / 2) in
  let c := 2 * Math_atan2 (Math_sqrt a) (Math_sqrt (1 - a)) in
  R * c.

(** ** A reference host

    Range reduction followed by truncated power series.  The special values
    are those ECMA-262 prescribes: [NaN] on [NaN] and on infinite arguments of
    the sine and cosine, signed zeros preserved by the sine, and the table of
    special cases of [Math.atan2]. *)
Module Reference.

Definition half_pi : float := Math_PI / 2.
Definition two52 : float := 0x1p52.

(** Round to the nearest integer (for magnitudes below 2^51). *)
Definition rint (x : float) : float := (x + two52) - two52.

(** Horner evaluation of [c0 + c1 z + c2 z^2 + ...]. *)
Fixpoint horner (coefficients : list float) (z : float) : float :=
  match coefficients with
  | [] => 0
  | c :: rest => c + z * horner rest z
  end.

(** The coefficients [(-1)^k / (2k+1)!] of the sine and [(-1)^k / (2k)!]
    of the cosine, as quotients computed in binary64. *)
Fixpoint sin_coefficients (terms : nat) (k : float) (c : float) : list float :=
  match terms with
  | O => []
  | S n => c :: sin_coefficients n (k + 2) (- c / ((k + 2) * (k + 3)))
  end.

Fixpoint cos_coefficients (terms : nat) (k : float) (c : float) : list float :=
  match terms with
  | O => []
  | S n => c :: cos_coefficients n (k + 2) (- c / ((k + 1) * (k + 2)))
  end.

Definition sin_core (y : float) : float :=
  y * horner (sin_coefficients 12 0 1) (y * y).

Definition cos_core (y : float) : float :=
  horner (cos_coefficients 12 0 1) (y * y).

(** Sine and cosine of a positive finite argument: the quadrant [k mod 4]
    selects the series. Arguments beyond 2^50 are not reduced. *)
Definition quadrant (x : float) : float * float :=
  let k := rint (x / half_pi) in
  let r := x - k * half_pi in
  let q := if k <? 4 then k else k - 4 * rint (k / 4 - 0x1.8p-2) in
  (q, r).

Definition sin_pos (x : float) : float :=
  if 0x1p50 <? x then 0
  else
    let '(q, r) := quadrant x in
    if q =? 0 then sin_core r
    else if q =? 1 then cos_core r
    else if q =? 2 then - sin_core r
    else - cos_core r.

Definition cos_pos (x : float) : float :=
  if 0x1p50 <? x then 1
  else
    let '(q, r) := quadrant x in
    if q =? 0 then cos_core r
    else if q =? 1 then - sin_core r
    else if q =? 2 then - cos_core r
    else sin_core r.

Definition sin (x : float) : float :=
  if is_nan x || is_infinity x then nan
  else if x <? 0 then - sin_pos (- x)
  else if 0 <? x then sin_pos x
  else x.

Definition cos (x : float) : float :=
  if is_nan x || is_infinity x then nan
  else if is_zero x then 1
  else cos_pos (abs x).

(** The arctangent on [0, +oo]: two half-angle reductions bring the
    argument below tan(pi/16), where the series converges fast. *)
Fixpoint atan_coefficients (terms : nat) (k : float) (sign : float) : list float :=
  match terms with
  | O => []
  | S n => sign / k :: atan_coefficients n (k + 2) (- sign)
  end.

Definition halve_angle (t : float) : float := t / (1 + sqrt (1 + t * t)).

Definition atan_unit (t : float) : float :=
  let u := halve_angle (halve_angle t) in
  4 * (u * horner (atan_coefficients 14 1 1) (u * u)).

Definition atan_pos (t : float) : float :=
  if 1 <? t then half_pi - atan_unit (1 / t) else atan_unit t.

(** The angle of the point [(x, ay)] for [ay >= 0], in [0, pi]. *)
Definition angle (ay x : float) : float :=
  if is_zero ay then (if signbit x then Math_PI else 0)
  else if is_zero x then half_pi
  else if is_infinity ay then
    (if is_infinity x then (if signbit x then 3 * (Math_PI / 4) else Math_PI / 4)
     else half_pi)
  else if is_infinity x then (if signbit x then Math_PI else 0)
  else if 0 <? x then atan_pos (ay / x)
  else Math_PI - atan_pos (ay / (- x)).

Definition atan2 (y x : float) : float :=
  if is_nan y || is_nan x then nan
  else
    let theta := abs (angle (abs y) x) in
    if signbit y then - theta else theta.

End Reference.

#[export] Instance referenceHost : MathHost := {
  Math_sin := Reference.sin;
  Math_cos := Reference.cos;
  Math_atan2 := Reference.atan2
}.

(** ** [Number.prototype.toFixed] and [parseFloat]

    [distance.toFixed(1)] produces a numeral that [parseFloat] reads back.
    The numeral is kept as the value its characters denote. *)
Inductive Numeral :=
  | NumeralNaN                               (* "NaN" *)
  | NumeralInfinity (negative : bool)        (* "Infinity", "-Infinity" *)
  | NumeralFixed1 (negative : bool) (tenths : N)
      (* the decimal digits of [tenths], the last one after the point *)
  | NumeralNumber (x : float).
      (* Number::toString(x), taken by toFixed for magnitudes of 1e21 and above *)

(** The integer [n] for which [n / 10 - x] is closest to zero, the larger one
    on a tie, for a finite [x >= 0] given as [m * 2^e]. *)
Definition nearest_tenths (m : positive) (e : Z) : N :=
  match e with
  | Zneg k => Z.to_N ((20 * Zpos m + 2 ^ Zpos k) / 2 ^ (Zpos k + 1))
  | _ => Z.to_N (10 * Zpos m * 2 ^ e)
  end.

Definition toFixed1 (x : float) : Numeral :=
  match Prim2SF x with
  | S754_nan => NumeralNaN
  | S754_infinity s => NumeralInfinity s
  | S754_zero _ => NumeralFixed1 false 0
  | S754_finite s m e =>
      if 0x1.b1ae4d6e2ef5p+69 <=? abs x then NumeralNumber x
      else NumeralFixed1 s (nearest_tenths m e)
  end.

(** The binary64 value nearest to [tenths / 10]. *)
Definition tenths_value (tenths : N) : float :=
  match tenths with
  | N0 => 0
  | Npos n => SF2Prim (SF64div (S754_finite false n 0) (S754_finite false 10 0))
  end.

Definition parseFloat (s : Numeral) : float :=
  match s with
  | NumeralNaN => nan
  | NumeralInfinity negative => if negative then neg_infinity else infinity
  | NumeralFixed1 negative tenths =>
      if negative then - tenths_value tenths else tenths_value tenths
  | NumeralNumber x => x
  end.

(** ** Data model *)

(** The user's position, [{ lat, lng }]. *)
Module Coords.
Record t := { lat : float; lng : float }.
End Coords.

(** An element of the Overpass response.  [lat]/[lon] are present on nodes,
    [center] on geometries queried with a centre, [tags] on tagged elements;
    a missing property reads as [undefined] ([None]).  The fields are typed
    after the Overpass JSON format: [id] is an integer, coordinates are
    numbers and tag values are strings.  The integer stands for the number
    [response.json()] reads, and its decimal numeral for what [toString]
    prints, which holds of the safe integers ([safe_integer] below; the ids
    of OpenStreetMap are far smaller): a larger id is rounded to binary64 on
    reading, and printed in exponent notation from 1e21 on. *)
Module Raw.
Record Center := { center_lat : option float; center_lon : option float }.
Record Element := {
  id : Z;
  lat : option float;
  lon : option float;
  center : option Center;
  tags : option (gmap string string)
}.
End Raw.

(** [interface HospitalData].  [name] and the two coordinates hold whatever
    the expression that initialises them evaluates to, which at run time may
    be [undefined]. *)
Module HospitalData.
Record Location := { lat : option float; lng : option float }.
Record t := {
  id : string;
  name : option string;
  distance : float;
  address : string;
  phone : string;
  emergency : bool;
  rating : float;
  specialties : list string;
  openNow : bool;
  location : Location
}.
End HospitalData.

(** ** [Array.prototype.sort]

    ECMA-262 leaves the algorithm to the implementation and requires it to be
    stable; a comparator result of [NaN] is read as [+0].  For a consistent
    comparator every conforming implementation returns the list computed by
    this stable insertion sort. *)
Fixpoint sort_insert {A} (comparefn : A -> A -> float) (x : A) (sorted : list A) : list A :=
  match sorted with
  | [] => [x]
  | y :: rest =>
      if comparefn y x <? 0 then y :: sort_insert comparefn x rest
      else x :: sorted
  end.

Definition Array_sort {A} (comparefn : A -> A -> float) (items : list A) : list A :=
  foldr (sort_insert comparefn) [] items.

(** ** The result pipeline of [fetchNearbyHospitals] *)

(** [element.tags && element.tags.name] *)
Definition has_name (element : Raw.Element) : bool :=
  match Raw.tags element with
  | Some tags => truthy_opt_string (tags !! "name")
  | None => false
  end.

(** [a || b] on numbers that may be [undefined]. *)
Definition or_else (a b : option float) : option float :=
  if truthy_opt_number a then a else b.

(** [element.lat || (element.center && element.center.lat)] *)
Definition resolve_lat (element : Raw.Element) : option float :=
  or_else (Raw.lat element) (Raw.center element ≫= Raw.center_lat).

(** [element.lon || (element.center && element.center.lon)] *)
Definition resolve_lng (element : Raw.Element) : option float :=
  or_else (Raw.lon element) (Raw.center element ≫= Raw.center_lon).

(** [tag || fallback] on a string that may be [undefined]. *)
Definition tag_or (tag : option string) (fallback : string) : string :=
  match tag with
  | Some s => if truthy_opt_string tag then s else fallback
  | None => fallback
  end.

(** [tag === 'yes'] *)
Definition is_yes (tag : option string) : bool :=
  match tag with
  | Some s => String.eqb s "yes"
  | None => false
  end.

Section Pipeline.
Context `{MathHost}.

(** The object literal returned by the callback of [.map], for an element
    whose [tags] object is [tags]. *)
Definition hospitalOf (userLocation : Coords.t) (element : Raw.Element)
    (tags : gmap string string) : HospitalData.t :=
  let lat := resolve_lat element in
  let lng := resolve_lng element in
  let distance :=
    calculateDistance (Coords.lat userLocation) (Coords.lng userLocation)
      (ToNumber lat) (ToNumber lng) in
  {| HospitalData.id := pretty (Raw.id element);
     HospitalData.name := tags !! "name";
     HospitalData.distance := parseFloat (toFixed1 distance);
     HospitalData.address := tag_or (tags !! "addr:street") "Address not available";
     HospitalData.phone := tag_or (tags !! "phone") "N/A";
     HospitalData.emergency := is_yes (tags !! "emergency");
     HospitalData.rating := 4.0;
     HospitalData.specialties := ["General Medicine"%string];
     HospitalData.openNow := true;
     HospitalData.location := {| HospitalData.lat := lat; HospitalData.lng := lng |} |}.

(** The callback of [.map]; reading [element.tags.name] throws a
    [TypeError] ([None]) when [element.tags] is [undefined]. *)
Definition toHospitalData (userLocation : Coords.t) (element : Raw.Element)
    : option HospitalData.t :=
  tags ← Raw.tags element;
  Some (hospitalOf userLocation element tags).

(** [hospital.location.lat && hospital.location.lng] *)
Definition has_location (hospital : HospitalData.t) : bool :=
  truthy_opt_number (HospitalData.lat (HospitalData.location hospital)) &&
  truthy_opt_number (HospitalData.lng (HospitalData.location hospital)).

(** [(a, b) => a.distance - b.distance] *)
Definition byDistance (a b : HospitalData.t) : float :=
  HospitalData.distance a - HospitalData.distance b.

(** The chain up to its second [.filter], before [.sort] and [.slice];
    [None] when a callback throws. *)
Definition locatedHospitals (elements : list Raw.Element) (userLocation : Coords.t)
    : option (list HospitalData.t) :=
  mapped ← mapM (toHospitalData userLocation) (filter (λ element, has_name element) elements);
  Some (filter (λ hospital, has_location hospital) mapped).

(** The value of [nearbyHospitals]. *)
Definition nearbyHospitals (elements : list Raw.Element) (userLocation : Coords.t)
    : option (list HospitalData.t) :=
  located ← locatedHospitals elements userLocation;
  Some (take 10 (Array_sort byDistance located)).

End Pipeline.

(** ** The component state and its start-up effect *)

(** The four [useState] cells of [App]. *)
Record AppState := {
  location : option Coords.t;
  hospitals : list HospitalData.t;
  loading : bool;
  error : option string
}.

Definition initialState : AppState :=
  {| location := None; hospitals := []; loading := true; error := None |}.

Definition setLocation (userLocation : Coords.t) (st : AppState) : AppState :=
  {| location := Some userLocation; hospitals := hospitals st;
     loading := loading st; error := error st |}.

Definition setHospitals (nearby : list HospitalData.t) (st : AppState) : AppState :=
  {| location := location st; hospitals := nearby;
     loading := loading st; error := error st |}.

Definition setLoading (flag : bool) (st : AppState) : AppState :=
  {| location := location st; hospitals := hospitals st;
     loading := flag; error := error st |}.

Definition setError (message : string) (st : AppState) : AppState :=
  {| location := location st; hospitals := hospitals st;
     loading := loading st; error := Some message |}.

(** What the browser's location capability does with the single
    [getCurrentPosition] request. *)
Inductive Geolocation :=
  | GeolocationUnsupported                         (* 'geolocation' in navigator is false *)
  | GeolocationError (code : Z)                    (* the error callback runs *)
  | GeolocationPosition (latitude longitude : float) (* the success callback runs *)
  | GeolocationPending.                            (* neither callback ever runs *)

(** The request sent to the Overpass interpreter: the query text is the
    template of the source with the radius and the coordinate filled in. *)
Record Request := {
  url : string;
  method : string;
  radius : Z;
  around : Coords.t
}.

(** [response.json()]: a rejected promise, the parsed document, of which the
    code reads [data.elements] ([None] when it is not there), or a promise
    that never settles (the body never ends). *)
Inductive Json :=
  | JsonSyntaxError
  | JsonDocument (elements : option (list Raw.Element))
  | JsonPending.

Record Response := { ok : bool; status : Z; json : Json }.

(** [fetch]: a rejected promise (network failure), a response of any
    status, or a promise that never settles (the code sets no timeout). *)
Inductive FetchResult :=
  | FetchRejected
  | FetchResolved (response : Response)
  | FetchPending.

Definition Network := Request -> FetchResult.

(** The outcome of an [await], and of a block that awaits: a value, an
    exception, or none at all when an awaited promise never settles. *)
Inductive Outcome (A : Type) :=
  | Fulfilled (value : A)
  | Thrown
  | Unsettled.
Arguments Fulfilled {A} value.
Arguments Thrown {A}.
Arguments Unsettled {A}.

#[export] Instance Outcome_bind : MBind Outcome := λ A B f outcome,
  match outcome with
  | Fulfilled value => f value
  | Thrown => Thrown
  | Unsettled => Unsettled
  end.

(** A synchronous step, which returns or throws ([None]). *)
Definition synchronous {A} (result : option A) : Outcome A :=
  match result with
  | Some value => Fulfilled value
  | None => Thrown
  end.

(** The two awaits of the [try] block. *)
Definition fetch (net : Network) (request : Request) : Outcome Response :=
  match net request with
  | FetchRejected => Thrown
  | FetchResolved response => Fulfilled response
  | FetchPending => Unsettled
  end.

Definition response_json (response : Response) : Outcome (option (list Raw.Element)) :=
  match json response with
  | JsonSyntaxError => Thrown
  | JsonDocument elements => Fulfilled elements
  | JsonPending => Unsettled
  end.

(** The single request of [fetchNearbyHospitals]: a POST to the Overpass
    interpreter for hospitals within 20 km of the user. *)
Definition overpassRequest (userLocation : Coords.t) : Request :=
  let radius := 20000%Z in
  {| url := "https://overpass-api.de/api/interpreter"; method := "POST";
     radius := radius; around := userLocation |}.

Section App.
Context `{MathHost}.

(** [fetchNearbyHospitals]: the state when the function returns, after the
    [try]/[catch], and the requests issued.  Any step of the [try] block
    that throws lands in the [catch]; the function does not return ([None])
    when one of its two awaits never settles. *)
Definition fetchNearbyHospitals (net : Network) (userLocation : Coords.t)
    (st : AppState) : option AppState * list Request :=
  let request := overpassRequest userLocation in
  let attempt :=
    response ← fetch net request;
    data_elements ← response_json response;
    synchronous (elements ← data_elements; nearbyHospitals elements userLocation) in
  (match attempt with
   | Fulfilled nearby => Some (setHospitals nearby st)
   | Thrown => Some (setError "Failed to fetch nearby hospitals. Please try again later." st)
   | Unsettled => None
   end, [request]).

(** The effect run once when [App] mounts: the state in which the component
    comes to rest, and the requests issued.  [setLoading(false)] follows the
    [await] of [fetchNearbyHospitals], so it runs only when that returns. *)
Definition App_mount (geolocation : Geolocation) (net : Network)
    : AppState * list Request :=
  match geolocation with
  | GeolocationPosition latitude longitude =>
      let userLocation := {| Coords.lat := latitude; Coords.lng := longitude |} in
      let '(result, requests) :=
        fetchNearbyHospitals net userLocation (setLocation userLocation initialState) in
      (match result with
       | Some st => setLoading false st
       | None => setLocation userLocation initialState
       end, requests)
  | GeolocationError _ =>
      (setLoading false
         (setError "Please enable location services to find nearby hospitals" initialState),
       [])
  | GeolocationUnsupported =>
      (setLoading false
         (setError "Geolocation is not supported by your browser" initialState),
       [])
  | GeolocationPending => (initialState, [])
  end.

End App.

(** What [App] renders: the three early-return branches. *)
Inductive View :=
  | LoadingView
  | ErrorView (message : string)
  | ResultsView (shown : list HospitalData.t).

Definition render (st : AppState) : View :=
  if loading st then LoadingView
  else match error st with
       | Some message => if String.eqb message "" then ResultsView (hospitals st) else ErrorView message
       | None => ResultsView (hospitals st)
       end.

(** ** [handleGetDirections] *)

(** A template literal: its chunks of text and the values substituted
    between them.  Evaluating it concatenates the text with [ToString] of
    each value; a number prints as its numeral, [undefined] as "undefined". *)
Inductive TemplateSpan :=
  | TemplateText (text : string)
  | TemplateNumber (value : option float).

(** A call [window.open(url, target)]. *)
Record WindowOpen := { open_url : list TemplateSpan; open_target : string }.

(** [handleGetDirections]: the windows it opens, in the state whose
    [location] the handler closes over. *)
Definition handleGetDirections (st : AppState) (hospital : HospitalData.t)
    : list WindowOpen :=
  match location st with
  | None => []
  | Some location =>
      let url :=
        [TemplateText "https://www.openstreetmap.org/directions?from=";
         TemplateNumber (Some (Coords.lat location)); TemplateText ",";
         TemplateNumber (Some (Coords.lng location)); TemplateText "&to=";
         TemplateNumber (HospitalData.lat (HospitalData.location hospital));
         TemplateText ",";
         TemplateNumber (HospitalData.lng (HospitalData.location hospital))] in
      [{| open_url := url; open_target := "_blank" |}]
  end.

(** ** [RecenterMap] *)

(** A call [map.setView(center, zoom)]. *)
Record SetView := { view_center : float * float; view_zoom : Z }.

(** The effect of [RecenterMap], run when the component mounts and when
    [location] or [map] changes. *)
Definition RecenterMap (location : Coords.t) : SetView :=
  {| view_center := (Coords.lat location, Coords.lng location); view_zoom := 13 |}.

(** ** The page returned by [App]

    The element tree of the third [return] is kept as the values it
    displays; class names and icons that do not depend on the state are left
    out. *)

(** One card of the list: the callback of [hospitals.map] in the left
    column. *)
Module Card.
Record t := {
  key : string;                        (* key={hospital.id} *)
  name : option string;                (* {hospital.name} *)
  shield : bool;                       (* {hospital.emergency && <Shield />} *)
  rating : float;                      (* {hospital.rating} *)
  distance : float;                    (* {hospital.distance} km away *)
  badge : string;                      (* hospital.openNow ? Open Now : Closed *)
  address : string;                    (* {hospital.address} *)
  phone : string;                      (* {hospital.phone} *)
  specialties : list (nat * string);   (* key={index}, {specialty} *)
  call : string;                       (* href={`tel:${hospital.phone}`} *)
  getDirections : list WindowOpen      (* onClick={() => handleGetDirections(hospital)} *)
}.
End Card.

Inductive Popup :=
  | PopupYourLocation                  (* Your Location *)
  | PopupHospital (name : option string) (distance : float).
      (* {hospital.name}, {hospital.distance} km away *)

Module Marker.
Record t := {
  key : option string;                      (* key={hospital.id}, none on the user's marker *)
  position : option float * option float;   (* position={[lat, lng]} *)
  popup : Popup
}.
End Marker.

Module MapContainer.
Record t := {
  center : float * float;     (* center={[location.lat, location.lng]} *)
  zoom : Z;                   (* zoom={13} *)
  recenter : SetView;         (* <RecenterMap location={location} /> *)
  markers : list Marker.t
}.
End MapContainer.

Module Page.
Record t := {
  usingCurrentLocation : bool;           (* {location && (... Using your current location ...)} *)
  cards : list Card.t;                   (* {hospitals.map(...)} *)
  mapContainer : option MapContainer.t   (* {location && (<MapContainer ...>)} *)
}.
End Page.

Definition hospitalCard (st : AppState) (hospital : HospitalData.t) : Card.t :=
  {| Card.key := HospitalData.id hospital;
     Card.name := HospitalData.name hospital;
     Card.shield := HospitalData.emergency hospital;
     Card.rating := HospitalData.rating hospital;
     Card.distance := HospitalData.distance hospital;
     Card.badge := if HospitalData.openNow hospital then "Open Now" else "Closed";
     Card.address := HospitalData.address hospital;
     Card.phone := HospitalData.phone hospital;
     Card.specialties :=
       imap (λ index specialty, (index, specialty)) (HospitalData.specialties hospital);
     Card.call := "tel:" +:+ HospitalData.phone hospital;
     Card.getDirections := handleGetDirections st hospital |}.

Definition hospitalMarker (hospital : HospitalData.t) : Marker.t :=
  {| Marker.key := Some (HospitalData.id hospital);
     Marker.position :=
       (HospitalData.lat (HospitalData.location hospital),
        HospitalData.lng (HospitalData.location hospital));
     Marker.popup :=
       PopupHospital (HospitalData.name hospital) (HospitalData.distance hospital) |}.

Definition resultsPage (st : AppState) : Page.t :=
  {| Page.usingCurrentLocation := bool_decide (is_Some (location st));
     Page.cards := hospitalCard st <$> hospitals st;
     Page.mapContainer :=
       location ← location st;
       Some {| MapContainer.center := (Coords.lat location, Coords.lng location);
               MapContainer.zoom := 13;
               MapContainer.recenter := RecenterMap location;
               MapContainer.markers :=
                 {| Marker.key := None;
                    Marker.position := (Some (Coords.lat location), Some (Coords.lng location));
                    Marker.popup := PopupYourLocation |}
                 :: (hospitalMarker <$> hospitals st) |} |}.

(** What [App] returns: one of its three [return] statements. *)
Inductive Screen :=
  | LoadingScreen (text : string)
  | ErrorScreen (message : string)
  | ResultsScreen (page : Page.t).

Definition App_return (st : AppState) : Screen :=
  match render st with
  | LoadingView => LoadingScreen "Finding nearby hospitals..."
  | ErrorView message => ErrorScreen message
  | ResultsView _ => ResultsScreen (resultsPage st)
  end.

(** ** Vocabulary of the statements *)

(** [a.distance <= b.distance], the order the result is meant to have. *)
Definition distance_le (a b : HospitalData.t) : Prop :=
  (HospitalData.distance a <=? HospitalData.distance b) = true.

(** The record the [.map] callback builds for an element; its [tags] are
    present on every element that passed the first [.filter]. *)
Definition recordOf `{MathHost} (userLocation : Coords.t) (element : Raw.Element)
    : HospitalData.t :=
  hospitalOf userLocation element (default ∅ (Raw.tags element)).

(** [Number.isSafeInteger]: the integers of magnitude at most 2^53 - 1, which
    a JSON numeral denotes exactly and [toString] prints in decimal.  On
    these the integer [id] of an element and its decimal numeral are the
    number the code reads and the string it prints. *)
Definition safe_integer (z : Z) : Prop :=
  (-9007199254740991 <= z <= 9007199254740991)%Z.

(** The request for the hospitals around a position never completes: the
    promise of [fetch], or that of [response.json()], never settles. *)
Definition request_pending (net : Network) (userLocation : Coords.t) : Prop :=
  net (overpassRequest userLocation) = FetchPending \/
  exists response,
    net (overpassRequest userLocation) = FetchResolved response /\
    json response = JsonPending.

(** An element passes both [.filter]s: it has a non-empty name and two
    truthy resolved coordinates. *)
Definition qualifies (element : Raw.Element) : bool :=
  has_name element &&
  truthy_opt_number (resolve_lat element) && truthy_opt_number (resolve_lng element).

(** Sample data: a user near the equator and the prime meridian, and named
    nodes of an Overpass response. *)
Module Sample.
Definition user : Coords.t := {| Coords.lat := 0.01; Coords.lng := 0.01 |}.

Definition node (id : Z) (lat lon : float) (tags : gmap string string) : Raw.Element :=
  {| Raw.id := id; Raw.lat := Some lat; Raw.lon := Some lon;
     Raw.center := None; Raw.tags := Some tags |}.

Definition named (id : Z) (lat lon : float) : Raw.Element :=
  node id lat lon {[ "name" := "Clinic"%string ]}.

(** Three nodes about 3.9 km, 1.9 km and 2.2 km north of the user. *)
Definition nearby : list Raw.Element :=
  [named 1 0.045 0.01; named 2 0.027 0.01; named 3 0.03 0.01].

(** The second node carries a latitude whose conversion to radians
    overflows. *)
Definition overflowing : list Raw.Element :=
  [named 1 0.045 0.01; named 2 1e308 0.01; named 3 0.027 0.01].

(** Twelve nodes at distinct distances north of the user. *)
Definition twelve : list Raw.Element :=
  [named 1 0.13 0.01; named 2 0.02 0.01; named 3 0.11 0.01; named 4 0.04 0.01;
   named 5 0.09 0.01; named 6 0.06 0.01; named 7 0.07 0.01; named 8 0.08 0.01;
   named 9 0.05 0.01; named 10 0.1 0.01; named 11 0.03 0.01; named 12 0.12 0.01].

(** A node on the equator. *)
Definition equator : Raw.Element := named 7 0 10.5.

(** A way whose centre lies on the equator. *)
Definition equator_way : Raw.Element :=
  {| Raw.id := 8; Raw.lat := None; Raw.lon := None;
     Raw.center := Some {| Raw.center_lat := Some 0; Raw.center_lon := Some 10.5 |};
     Raw.tags := Some {[ "name" := "Clinic"%string ]} |}.

(** A node whose street tag is the empty string. *)
Definition unaddressed : Raw.Element :=
  node 9 0.045 0.01 {[ "name" := "Clinic"%string; "addr:street" := ""%string ]}.
End Sample.

Module SampleNet.
(** A service that answers every request with status 500 and a well-formed
    document. *)
Definition failing_with_document : Network :=
  λ _, FetchResolved {| ok := false; status := 500;
                        json := JsonDocument (Some Sample.nearby) |}.

(** A service that answers with status 504 and a body that is not JSON. *)
Definition gateway_timeout : Network :=
  λ _, FetchResolved {| ok := false; status := 504; json := JsonSyntaxError |}.
End SampleNet.

Module Scenario.
(** A service that answers every request with status 200 and the given
    elements. *)
Definition answering (elements : list Raw.Element) : Network :=
  λ _, FetchResolved {| ok := true; status := 200; json := JsonDocument (Some elements) |}.

(** Two nodes at the same distance from the user, with a nearer one between
    them in the response. *)
Definition tied : list Raw.Element :=
  [Sample.named 1 0.045 0.01; Sample.named 2 0.027 0.01; Sample.named 3 0.045 0.01].

(** A service whose answer never arrives. *)
Definition silent : Network := λ _, FetchPending.

(** A service that answers with status 200 and a body that never ends. *)
Definition stalled : Network :=
  λ _, FetchResolved {| ok := true; status := 200; json := JsonPending |}.
End Scenario.

(** * Facts about binary64 arithmetic

    Proved from the specification of the primitive operations
    ([FloatAxioms]) over [SpecFloat]. *)

Abbreviation bra := (binary_round_aux prec emax).
Abbreviation emin64 := (SpecFloat.emin prec emax).

Section SpecFloatFacts.
Local Open Scope Z_scope.

(** ** Rounding never underflows to zero *)

(** A positive number of [d] binary digits lies in [[2^(d-1), 2^d)]. *)
Lemma digits2_pos_bounds p :
  2 ^ (Zpos (digits2_pos p) - 1) <= Zpos p < 2 ^ Zpos (digits2_pos p).
Proof.
  induction p as [p IH|p IH|]; cbn [digits2_pos].
  - rewrite Pos2Z.inj_succ, Z.pow_succ_r by lia.
    replace (Z.succ (Zpos (digits2_pos p)) - 1) with (Z.succ (Zpos (digits2_pos p) - 1)) by lia.
    rewrite Z.pow_succ_r by lia. lia.
  - rewrite Pos2Z.inj_succ, Z.pow_succ_r by lia.
    replace (Z.succ (Zpos (digits2_pos p)) - 1) with (Z.succ (Zpos (digits2_pos p) - 1)) by lia.
    rewrite Z.pow_succ_r by lia. lia.
  - simpl. lia.
Qed.

(** A right shift halves the mantissa. *)
Lemma shr_m_shr_1 mrs : 0 <= shr_m mrs -> shr_m (shr_1 mrs) = shr_m mrs / 2.
Proof.
  destruct mrs as [m r s]. cbn [shr_m]. intros Hm.
  destruct m as [|[p|p|]|p]; cbn [shr_1 shr_m]; try lia.
  all: try reflexivity.
  - rewrite Pos2Z.inj_xI. apply Z.div_unique with 1; lia.
  - rewrite Pos2Z.inj_xO. apply Z.div_unique with 0; lia.
Qed.

Lemma shr_m_iter p : forall mrs, 0 <= shr_m mrs ->
  shr_m (SpecFloat.iter_pos shr_1 p mrs) = shr_m mrs / 2 ^ Zpos p.
Proof.
  induction p as [p IH|p IH|]; intros mrs Hm; cbn [SpecFloat.iter_pos].
  - assert (H1 : 0 <= shr_m (shr_1 mrs)) by (rewrite shr_m_shr_1 by lia; apply Z.div_pos; lia).
    assert (H2 : 0 <= shr_m (SpecFloat.iter_pos shr_1 p (shr_1 mrs))) by (rewrite IH by lia; apply Z.div_pos; lia).
    rewrite IH, IH, shr_m_shr_1 by lia.
    rewrite !Z.div_div by lia. f_equal.
    replace (Zpos p~1) with (1 + Zpos p + Zpos p) by lia.
    rewrite !Z.pow_add_r by lia. lia.
  - assert (H2 : 0 <= shr_m (SpecFloat.iter_pos shr_1 p mrs)) by (rewrite IH by lia; apply Z.div_pos; lia).
    rewrite IH, IH by lia.
    rewrite !Z.div_div by lia. f_equal.
    replace (Zpos p~0) with (Zpos p + Zpos p) by lia.
    rewrite !Z.pow_add_r by lia. lia.
  - rewrite shr_m_shr_1 by lia. reflexivity.
Qed.

Lemma shr_m_of_loc m l : shr_m (shr_record_of_loc m l) = m.
Proof. destruct l as [|[]]; reflexivity. Qed.

(** Shifting a positive mantissa to its canonical exponent keeps it positive. *)
Lemma shr_fexp_pos p e l :
  emin64 <= e ->
  0 < shr_m (fst (shr_fexp prec emax (Zpos p) e l)) /\
  emin64 <= snd (shr_fexp prec emax (Zpos p) e l).
Proof.
  intros He. unfold shr_fexp, shr. cbn [Zdigits2].
  pose proof (digits2_pos_bounds p) as [Hlo Hhi].
  set (d := Zpos (digits2_pos p)) in *.
  destruct (fexp prec emax (d + e) - e) as [|k|k] eqn:Hn; cbn [fst snd];
    rewrite ?shr_m_of_loc; try lia.
  rewrite shr_m_iter by (rewrite shr_m_of_loc; lia). rewrite shr_m_of_loc.
  assert (Hk : Zpos k = d - prec).
  { unfold fexp in Hn. fold emin64 in Hn. lia. }
  split; [|lia].
  apply Z.div_str_pos. split; [lia|].
  apply Z.le_trans with (2 ^ (d - 1)); [|lia].
  apply Z.pow_le_mono_r; [lia|]. unfold prec in Hk. lia.
Qed.

Lemma round_nearest_even_pos m l : 0 < m -> 0 < round_nearest_even m l.
Proof. intros Hm. destruct l as [|[]]; cbn [round_nearest_even]; try lia. destruct (Z.even m); lia. Qed.

(** Rounding a positive mantissa at an exponent of at least [emin] never
    underflows to zero: the result is finite or infinite, with the given sign. *)
Lemma binary_round_aux_pos s p e l :
  emin64 <= e ->
  (exists m' e', bra s (Zpos p) e l = S754_finite s m' e') \/
  bra s (Zpos p) e l = S754_infinity s.
Proof.
  intros He. unfold binary_round_aux.
  pose proof (shr_fexp_pos p e l He) as [Hm1 He1].
  destruct (shr_fexp prec emax (Zpos p) e l) as [mrs' e']. cbn [fst snd] in *.
  pose proof (round_nearest_even_pos (shr_m mrs') (loc_of_shr_record mrs') Hm1) as Hr.
  destruct (round_nearest_even (shr_m mrs') (loc_of_shr_record mrs')) as [|q|q]; try lia.
  pose proof (shr_fexp_pos q e' loc_Exact He1) as [Hm2 He2].
  destruct (shr_fexp prec emax (Zpos q) e' loc_Exact) as [mrs'' e'']. cbn [fst snd] in *.
  destruct (shr_m mrs'') as [|m''|m'']; try lia.
  destruct (e'' <=? emax - prec); eauto.
Qed.

Lemma binary_round_pos s p e :
  emin64 <= e ->
  (exists m' e', binary_round prec emax s p e = S754_finite s m' e') \/
  binary_round prec emax s p e = S754_infinity s.
Proof.
  intros He. unfold binary_round, shl_align.
  destruct (fexp prec emax (Zpos (digits2_pos p) + e) - e) as [|k|k] eqn:Hn;
    apply binary_round_aux_pos; try lia.
  unfold fexp in *. fold emin64 in *. lia.
Qed.

(** ** Rounding commutes with negation *)

Lemma binary_round_aux_opp s m e l :
  SFopp (bra s m e l) = bra (negb s) m e l.
Proof.
  unfold binary_round_aux.
  destruct (shr_fexp prec emax m e l) as [mrs' e'].
  destruct (shr_fexp prec emax _ e' loc_Exact) as [mrs'' e''].
  destruct (shr_m mrs''); try reflexivity.
  destruct (e'' <=? emax - prec)%Z; reflexivity.
Qed.

Lemma binary_round_opp s m e :
  SFopp (binary_round prec emax s m e) = binary_round prec emax (negb s) m e.
Proof.
  unfold binary_round. destruct (shl_align _ _ _) as [mz ez].
  apply binary_round_aux_opp.
Qed.

(** ** Subtraction and comparison *)

(** A valid finite number has its exponent at least [emin] and at most
    [prec] digits, exactly [prec] above [emin]. *)
Lemma valid_finite s m e :
  valid_binary (S754_finite s m e) = true ->
  emin64 <= e /\ Zpos (digits2_pos m) <= prec /\
  (emin64 < e -> Zpos (digits2_pos m) = prec).
Proof.
  cbn [SpecFloat.valid_binary]. unfold bounded, canonical_mantissa, fexp.
  intros Hv. apply andb_true_iff in Hv as [Hc _]. apply Z.eqb_eq in Hc. lia.
Qed.

Lemma shl_align_value m e e' :
  e' <= e -> Zpos (fst (shl_align m e e')) = Zpos m * 2 ^ (e - e').
Proof.
  intros Hle. unfold shl_align.
  destruct (e' - e) as [|d|d] eqn:Hd; cbn [fst]; try lia.
  - replace (e - e') with 0 by lia. lia.
  - replace (e - e') with (Zpos d) by lia.
    change (Pos.iter xO m d) with (shift_pos d m).
    rewrite shift_pos_correct. rewrite Zpower_pos_nat, Zpower_nat_Z, positive_nat_Z. lia.
Qed.

(** The aligned, signed mantissas of two valid finite numbers compare as the
    numbers do. *)
Lemma SFcompare_aligned sx mx ex sy my ey :
  valid_binary (S754_finite sx mx ex) = true ->
  valid_binary (S754_finite sy my ey) = true ->
  let ez := Z.min ex ey in
  SFcompare (S754_finite sx mx ex) (S754_finite sy my ey) =
  Some (cond_Zopp sx (Zpos (fst (shl_align mx ex ez))) ?=
        cond_Zopp sy (Zpos (fst (shl_align my ey ez)))).
Proof.
  intros Hx Hy ez.
  apply valid_finite in Hx as (Hex & Hdx & Hnx), Hy as (Hey & Hdy & Hny).
  pose proof (digits2_pos_bounds mx) as [Hlx Hhx].
  pose proof (digits2_pos_bounds my) as [Hly Hhy].
  rewrite !shl_align_value by lia.
  set (X := Zpos mx * 2 ^ (ex - ez)). set (Y := Zpos my * 2 ^ (ey - ez)).
  assert (HXY : (ex ?= ey) = Lt -> X < Y).
  { intros Hc. assert (Hlt : ex < ey) by (apply Z.compare_lt_iff; exact Hc). subst X Y ez.
    rewrite Z.min_l by lia. replace (ex - ex) with 0 by lia. rewrite Z.pow_0_r, Z.mul_1_r.
    assert (Hd : Zpos (digits2_pos my) = prec) by (apply Hny; lia). rewrite Hd in Hly.
    apply Z.lt_le_trans with (2 ^ prec).
    - apply Z.lt_le_trans with (2 ^ Zpos (digits2_pos mx)); [lia|].
      apply Z.pow_le_mono_r; lia.
    - replace prec with ((prec - 1) + 1) at 1 by lia. rewrite Z.pow_add_r by (unfold prec; lia).
      apply Z.mul_le_mono_nonneg; try lia.
      replace 2 with (2 ^ 1) at 1 by reflexivity. apply Z.pow_le_mono_r; lia. }
  assert (HYX : (ex ?= ey) = Gt -> Y < X).
  { intros Hc. assert (Hgt : ey < ex) by (apply Z.compare_gt_iff; exact Hc). subst X Y ez.
    rewrite Z.min_r by lia. replace (ey - ey) with 0 by lia. rewrite Z.pow_0_r, Z.mul_1_r.
    assert (Hd : Zpos (digits2_pos mx) = prec) by (apply Hnx; lia). rewrite Hd in Hlx.
    apply Z.lt_le_trans with (2 ^ prec).
    - apply Z.lt_le_trans with (2 ^ Zpos (digits2_pos my)); [lia|].
      apply Z.pow_le_mono_r; lia.
    - replace prec with ((prec - 1) + 1) at 1 by lia. rewrite Z.pow_add_r by (unfold prec; lia).
      apply Z.mul_le_mono_nonneg; try lia.
      replace 2 with (2 ^ 1) at 1 by reflexivity. apply Z.pow_le_mono_r; lia. }
  assert (HEQ : (ex ?= ey) = Eq -> X = Zpos mx /\ Y = Zpos my).
  { intros Heq. apply Z.compare_eq in Heq. subst X Y ez.
    rewrite Z.min_l by lia. subst ey. replace (ex - ex) with 0 by lia.
    rewrite Z.pow_0_r. lia. }
  assert (HX : 0 < X) by (subst X; apply Z.mul_pos_pos; [lia|apply Z.pow_pos_nonneg; lia]).
  assert (HY : 0 < Y) by (subst Y; apply Z.mul_pos_pos; [lia|apply Z.pow_pos_nonneg; lia]).
  cbn [SFcompare]. f_equal.
  destruct sx, sy; cbn [cond_Zopp].
  - destruct (ex ?= ey) eqn:Hc.
    + destruct (HEQ eq_refl) as [-> ->]. reflexivity.
    + symmetry. apply Z.compare_gt_iff. specialize (HXY eq_refl). lia.
    + symmetry. apply Z.compare_lt_iff. specialize (HYX eq_refl). lia.
  - symmetry. apply Z.compare_lt_iff. lia.
  - symmetry. apply Z.compare_gt_iff. lia.
  - destruct (ex ?= ey) eqn:Hc.
    + destruct (HEQ eq_refl) as [-> ->]. reflexivity.
    + symmetry. apply Z.compare_lt_iff. auto.
    + symmetry. apply Z.compare_gt_iff. auto.
Qed.

(** The sign of a difference computed on aligned mantissas survives
    rounding. *)
Lemma binary_normalize_sign z e :
  emin64 <= e ->
  SFltb (binary_normalize prec emax z e false) (S754_zero false) = (z <? 0) /\
  SFltb (S754_zero false) (binary_normalize prec emax z e false) = (0 <? z).
Proof.
  intros He. destruct z as [|p|p]; cbn [binary_normalize].
  - split; reflexivity.
  - destruct (binary_round_pos false p e He) as [(m' & e' & ->)| ->]; split; reflexivity.
  - destruct (binary_round_pos true p e He) as [(m' & e' & ->)| ->]; split; reflexivity.
Qed.

(** [x - y] is negative exactly when [x < y], and positive exactly when
    [y < x]: the difference of two numbers rounds to zero only when it is
    zero. *)
Lemma SFsub_sign x y :
  valid_binary x = true -> valid_binary y = true ->
  SFltb (SF64sub x y) (S754_zero false) = SFltb x y /\
  SFltb (S754_zero false) (SF64sub x y) = SFltb y x.
Proof.
  intros Hx Hy. unfold SF64sub.
  destruct x as [sx|sx| |sx mx ex], y as [sy|sy| |sy my ey];
    try (split; reflexivity);
    try (destruct sx; try destruct sy; split; reflexivity);
    try (destruct sy; split; reflexivity).
  cbn [SFsub].
  pose proof (valid_finite _ _ _ Hx) as (Hex & _).
  pose proof (valid_finite _ _ _ Hy) as (Hey & _).
  destruct (binary_normalize_sign
    (cond_Zopp sx (Zpos (fst (shl_align mx ex (Z.min ex ey)))) -
     cond_Zopp sy (Zpos (fst (shl_align my ey (Z.min ex ey))))) (Z.min ex ey)) as [H1 H2]; [lia|].
  rewrite H1, H2. unfold SFltb.
  rewrite (SFcompare_aligned sx mx ex sy my ey Hx Hy).
  rewrite (SFcompare_aligned sy my ey sx mx ex Hy Hx).
  rewrite (Z.min_comm ey ex).
  set (X := cond_Zopp sx _). set (Y := cond_Zopp sy _).
  split.
  - destruct (X ?= Y) eqn:Hc.
    + apply Z.compare_eq in Hc. lia.
    + assert (X < Y) by (apply Z.compare_lt_iff; exact Hc). lia.
    + assert (Y < X) by (apply Z.compare_gt_iff; exact Hc). lia.
  - destruct (Y ?= X) eqn:Hc.
    + apply Z.compare_eq in Hc. lia.
    + assert (Y < X) by (apply Z.compare_lt_iff; exact Hc). lia.
    + assert (X < Y) by (apply Z.compare_gt_iff; exact Hc). lia.
Qed.

Lemma SFcompare_antisym x y :
  SFcompare y x = option_map CompOpp (SFcompare x y).
Proof.
  destruct x as [sx|sx| |sx mx ex], y as [sy|sy| |sy my ey];
    try reflexivity;
    try (destruct sx; try destruct sy; reflexivity);
    try (destruct sy; reflexivity).
  cbn [SFcompare option_map]. f_equal.
  rewrite (Z.compare_antisym ex ey).
  change (Pos.compare_cont Eq my mx) with (my ?= mx)%positive.
  change (Pos.compare_cont Eq mx my) with (mx ?= my)%positive.
  rewrite (Pos.compare_antisym mx my).
  destruct sx, sy, (ex ?= ey), (mx ?= my)%positive; reflexivity.
Qed.

(** Swapping the operands of a subtraction negates the result, unless both
    results are [+0]. *)
Lemma SFsub_anti x y :
  SF64sub y x = SFopp (SF64sub x y) \/
  (SF64sub x y = S754_zero false /\ SF64sub y x = S754_zero false).
Proof.
  unfold SF64sub.
  destruct x as [sx|sx| |sx mx ex], y as [sy|sy| |sy my ey];
    try (cbn; auto; fail);
    try (destruct sx; try destruct sy; cbn; auto; fail);
    try (destruct sy; cbn; auto; fail).
  cbn [SFsub]. rewrite (Z.min_comm ey ex).
  set (X := cond_Zopp sx _). set (Y := cond_Zopp sy _).
  destruct (X - Y) as [|p|p] eqn:Hd.
  - right. replace (Y - X) with 0 by lia. split; reflexivity.
  - left. replace (Y - X) with (Zneg p) by lia. cbn [binary_normalize].
    rewrite binary_round_opp. reflexivity.
  - left. replace (Y - X) with (Zpos p) by lia. cbn [binary_normalize].
    rewrite binary_round_opp. reflexivity.
Qed.

End SpecFloatFacts.

(** ** Algebra of the primitive operations *)

Lemma SFopp_involutive x : SFopp (SFopp x) = x.
Proof. destruct x; simpl; rewrite ?negb_involutive; reflexivity. Qed.

Lemma opp_involutive (x : float) : - - x = x.
Proof. apply Prim2SF_inj. rewrite !opp_spec. apply SFopp_involutive. Qed.

Lemma SFmul_comm x y : SF64mul x y = SF64mul y x.
Proof.
  unfold SF64mul.
  destruct x as [sx|sx| |sx mx ex], y as [sy|sy| |sy my ey]; simpl;
    rewrite ?(xorb_comm sx sy); try reflexivity.
  rewrite (Pos.mul_comm mx my), (Z.add_comm ex ey). reflexivity.
Qed.

Lemma mul_comm (x y : float) : x * y = y * x.
Proof. apply Prim2SF_inj. rewrite !mul_spec. apply SFmul_comm. Qed.

Lemma SFmul_opp_l x y : SF64mul (SFopp x) y = SFopp (SF64mul x y).
Proof.
  unfold SF64mul.
  destruct x as [sx|sx| |sx mx ex], y as [sy|sy| |sy my ey]; cbn [SFmul SFopp];
    rewrite ?binary_round_aux_opp, <- ?negb_xorb_l; reflexivity.
Qed.

Lemma mul_opp_l (x y : float) : (- x) * y = - (x * y).
Proof. apply Prim2SF_inj. rewrite !opp_spec, !mul_spec, opp_spec. apply SFmul_opp_l. Qed.

Lemma mul_opp_r (x y : float) : x * (- y) = - (x * y).
Proof. rewrite mul_comm, mul_opp_l, mul_comm. reflexivity. Qed.

Lemma mul_opp_opp (x y : float) : (- x) * (- y) = x * y.
Proof. rewrite mul_opp_l, mul_opp_r, opp_involutive. reflexivity. Qed.

Lemma SFdiv_opp_l x y : SF64div (SFopp x) y = SFopp (SF64div x y).
Proof.
  unfold SF64div.
  destruct x as [sx|sx| |sx mx ex], y as [sy|sy| |sy my ey]; cbn [SFdiv SFopp];
    rewrite <- ?negb_xorb_l; try reflexivity.
  destruct (SFdiv_core_binary prec emax (Z.pos mx) ex (Z.pos my) ey) as [[mz ez] lz].
  rewrite binary_round_aux_opp. reflexivity.
Qed.

Lemma div_opp_l (x y : float) : (- x) / y = - (x / y).
Proof. apply Prim2SF_inj. rewrite !opp_spec, !div_spec, opp_spec. apply SFdiv_opp_l. Qed.

(** ** The comparator [a - b] and the order of numbers *)

Lemma Prim2SF_zero : Prim2SF 0 = S754_zero false.
Proof. reflexivity. Qed.

(** On all numbers, [a - b < 0] exactly when [a < b]. *)
Lemma sub_ltb_zero (a b : float) : (a - b <? 0) = (a <? b).
Proof.
  rewrite !ltb_spec, sub_spec, Prim2SF_zero.
  apply SFsub_sign; apply Prim2SF_valid.
Qed.

Lemma is_nan_spec (x : float) : is_nan x = false <-> Prim2SF x <> S754_nan.
Proof.
  unfold is_nan. rewrite FloatAxioms.eqb_spec. unfold SFeqb.
  pose proof (Prim2SF_valid x) as Hv.
  destruct (Prim2SF x) as [s|s| |s m e]; cbn [SFcompare].
  - destruct s; split; intros; try reflexivity; discriminate.
  - destruct s; split; intros; try reflexivity; discriminate.
  - split; intros; [discriminate|congruence].
  - rewrite Z.compare_refl.
    change (Pos.compare_cont Eq m m) with (m ?= m)%positive. rewrite Pos.compare_refl.
    destruct s; split; intros; try reflexivity; discriminate.
Qed.

Lemma SFcompare_defined x y :
  x <> S754_nan -> y <> S754_nan -> exists c, SFcompare x y = Some c.
Proof.
  intros Hx Hy.
  destruct x as [sx|sx| |sx mx ex], y as [sy|sy| |sy my ey];
    try congruence; cbn [SFcompare]; eauto.
Qed.

(** On numbers, [<] and [<=] are total: when [a < b] fails, [b <= a]. *)
Lemma ltb_false_leb (a b : float) :
  is_nan a = false -> is_nan b = false -> (a <? b) = false -> (b <=? a) = true.
Proof.
  rewrite !is_nan_spec, ltb_spec, leb_spec. unfold SFltb, SFleb.
  intros Ha Hb. rewrite (SFcompare_antisym (Prim2SF a) (Prim2SF b)).
  destruct (SFcompare_defined _ _ Ha Hb) as [c ->]. cbn [option_map].
  destruct c; cbn [CompOpp]; congruence.
Qed.

Lemma ltb_leb (a b : float) : (a <? b) = true -> (a <=? b) = true.
Proof.
  rewrite ltb_spec, leb_spec. unfold SFltb, SFleb.
  destruct (SFcompare _ _) as [[]|]; congruence.
Qed.

Lemma leb_not_nan (a b : float) : (a <=? b) = true -> is_nan a = false /\ is_nan b = false.
Proof.
  rewrite leb_spec, !is_nan_spec. unfold SFleb.
  destruct (Prim2SF a), (Prim2SF b); cbn [SFcompare]; intros; split; congruence.
Qed.

(** ** Signs *)

Section SignFactsZ.
Local Open Scope Z_scope.

(** A value rounded with a clear sign is never below zero. *)
Lemma binary_round_aux_nonneg m e l :
  SFltb (bra false m e l) (S754_zero false) = false.
Proof.
  unfold binary_round_aux.
  destruct (shr_fexp prec emax m e l) as [mrs' e'].
  destruct (shr_fexp prec emax _ e' loc_Exact) as [mrs'' e''].
  destruct (shr_m mrs''); try reflexivity.
  destruct (e'' <=? emax - prec); reflexivity.
Qed.

Lemma binary_round_nonneg m e :
  SFltb (binary_round prec emax false m e) (S754_zero false) = false.
Proof.
  unfold binary_round. destruct (shl_align _ _ _) as [mz ez].
  apply binary_round_aux_nonneg.
Qed.

Lemma binary_round_aux_signbit m e l : sf_signbit (bra false m e l) = false.
Proof.
  unfold binary_round_aux.
  destruct (shr_fexp prec emax m e l) as [mrs' e'].
  destruct (shr_fexp prec emax _ e' loc_Exact) as [mrs'' e''].
  destruct (shr_m mrs''); try reflexivity.
  destruct (e'' <=? emax - prec); reflexivity.
Qed.

Lemma SFmul_nonneg x y :
  SFltb x (S754_zero false) = false -> SFltb y (S754_zero false) = false ->
  SFltb (SF64mul x y) (S754_zero false) = false.
Proof.
  unfold SF64mul.
  destruct x as [sx|sx| |sx mx ex], y as [sy|sy| |sy my ey];
    try reflexivity;
    try (destruct sx; try discriminate; try destruct sy; try discriminate; reflexivity);
    try (destruct sy; try discriminate; reflexivity).
  destruct sx; [discriminate|]. destruct sy; [discriminate|]. intros _ _.
  apply binary_round_aux_nonneg.
Qed.

Lemma SFmul_self_signbit x : sf_signbit (SF64mul x x) = false.
Proof.
  unfold SF64mul. destruct x as [s|s| |s m e]; cbn [SFmul sf_signbit];
    rewrite ?xorb_nilpotent; try reflexivity.
  apply binary_round_aux_signbit.
Qed.

(** A sum whose first operand has a clear sign bit is never [-0]. *)
Lemma SFadd_not_neg_zero x y :
  valid_binary x = true -> valid_binary y = true ->
  sf_signbit x = false -> SF64add x y <> S754_zero true.
Proof.
  intros Hx Hy Hs. unfold SF64add.
  destruct x as [sx|sx| |sx mx ex], y as [sy|sy| |sy my ey]; cbn [sf_signbit] in Hs; subst;
    cbn [SFadd]; try discriminate; try (destruct sy; discriminate).
  pose proof (valid_finite _ _ _ Hx) as (Hex & _).
  pose proof (valid_finite _ _ _ Hy) as (Hey & _).
  destruct (_ + _) as [|p|p]; cbn [binary_normalize]; [discriminate| |].
  - destruct (binary_round_pos false p (Z.min ex ey)) as [(m' & e' & ->)| ->]; [lia|discriminate..].
  - destruct (binary_round_pos true p (Z.min ex ey)) as [(m' & e' & ->)| ->]; [lia|discriminate..].
Qed.

Lemma SFsqrt_signbit x : x <> S754_zero true -> sf_signbit (SF64sqrt x) = false.
Proof.
  intros Hx. unfold SF64sqrt. destruct x as [[]|[]| |[] m e]; cbn [SFsqrt sf_signbit]; try reflexivity.
  - congruence.
  - destruct (SFsqrt_core_binary prec emax (Zpos m) e) as [[mz ez] lz].
    apply binary_round_aux_signbit.
Qed.

End SignFactsZ.

Lemma signbit_spec (x : float) : signbit x = sf_signbit (Prim2SF x).
Proof. reflexivity. Qed.

Lemma signbit_ltb (x : float) : signbit x = false -> (x <? 0) = false.
Proof.
  rewrite signbit_spec, ltb_spec, Prim2SF_zero.
  destruct (Prim2SF x) as [s|s| |s m e]; cbn [sf_signbit]; intros Hs; try subst s; reflexivity.
Qed.

Lemma mul_nonneg (x y : float) :
  (x <? 0) = false -> (y <? 0) = false -> (x * y <? 0) = false.
Proof. rewrite !ltb_spec, mul_spec, Prim2SF_zero. apply SFmul_nonneg. Qed.

Lemma signbit_mul_self (x : float) : signbit (x * x) = false.
Proof. rewrite signbit_spec, mul_spec. apply SFmul_self_signbit. Qed.

Lemma signbit_sqrt_add (p q : float) :
  signbit p = false -> signbit (sqrt (p + q)) = false.
Proof.
  rewrite !signbit_spec, sqrt_spec, add_spec. intros Hp.
  apply SFsqrt_signbit, SFadd_not_neg_zero; auto using Prim2SF_valid.
Qed.

Lemma abs_nonneg (x : float) : (abs x <? 0) = false.
Proof.
  rewrite ltb_spec, abs_spec, Prim2SF_zero.
  destruct (Prim2SF x) as [s|s| |s m e]; reflexivity.
Qed.

Lemma nonneg_leb (d : float) : (d <? 0) = false -> is_nan d = false -> (0 <=? d) = true.
Proof. intros Hd Hn. apply ltb_false_leb; auto. Qed.

(** ** [toFixed(1)] and [parseFloat] *)

Section Conversions.
Local Open Scope Z_scope.

Lemma binary_normalize_nonneg z e :
  0 <= z -> SFltb (binary_normalize prec emax z e false) (S754_zero false) = false.
Proof.
  destruct z as [|p|p]; cbn [binary_normalize]; intros Hz; try lia.
  - reflexivity.
  - apply binary_round_nonneg.
Qed.

Lemma SFldexp_nonneg x e :
  SFltb x (S754_zero false) = false ->
  SFltb (SFldexp prec emax x e) (S754_zero false) = false.
Proof.
  destruct x as [s|s| |s m ex]; cbn [SFldexp]; auto.
  destruct s; [discriminate|]. intros _. apply binary_round_nonneg.
Qed.

Lemma SF2Prim_nonneg r :
  SFltb r (S754_zero false) = false -> (SF2Prim r <? 0)%float = false.
Proof.
  destruct r as [[]|[]| |[] m e]; try discriminate; try reflexivity.
  intros _. cbn [SF2Prim].
  rewrite ltb_spec, Z_ldexp_spec, of_uint63_spec, Prim2SF_zero.
  apply SFldexp_nonneg, binary_normalize_nonneg.
  apply Uint63.to_Z_bounded.
Qed.

End Conversions.

Lemma tenths_value_nonneg (n : N) : (tenths_value n <? 0) = false.
Proof.
  destruct n as [|p]; [reflexivity|]. unfold tenths_value.
  apply SF2Prim_nonneg. unfold SF64div. cbn [SFdiv xorb].
  destruct (SFdiv_core_binary _ _ _ _ _ _) as [[mz ez] lz].
  apply binary_round_aux_nonneg.
Qed.

(** Rounding to one decimal never produces a negative number from a number
    that is not negative. *)
Lemma parseFloat_toFixed1_nonneg (d : float) :
  (d <? 0) = false -> (parseFloat (toFixed1 d) <? 0) = false.
Proof.
  intros Hd. unfold toFixed1.
  pose proof Hd as Hs. rewrite ltb_spec, Prim2SF_zero in Hs.
  destruct (Prim2SF d) as [s|s| |s m e] eqn:Hp; cbn [parseFloat].
  - reflexivity.
  - destruct s; [discriminate|reflexivity].
  - reflexivity.
  - destruct s; [discriminate|].
    destruct (_ <=? abs d); cbn [parseFloat]; [exact Hd|apply tenths_value_nonneg].
Qed.

(** ** Squares of numbers of magnitude at most one *)

Section Overflow.
Local Open Scope Z_scope.

Lemma digits2_pos_le p k : 0 <= k -> Zpos p <= 2 ^ k -> Zpos (digits2_pos p) <= k + 1.
Proof.
  intros Hk Hp. pose proof (digits2_pos_bounds p) as [Hlo _].
  assert (H : 2 ^ (Zpos (digits2_pos p) - 1) <= 2 ^ k) by lia.
  apply Z.pow_le_mono_r_iff in H; lia.
Qed.

Lemma digits2_pos_lt p k : 0 <= k -> Zpos p < 2 ^ k -> Zpos (digits2_pos p) <= k.
Proof.
  intros Hk Hp. pose proof (digits2_pos_bounds p) as [Hlo _].
  assert (H : 2 ^ (Zpos (digits2_pos p) - 1) < 2 ^ k) by lia.
  apply Z.pow_lt_mono_r_iff in H; lia.
Qed.

Lemma shr_fexp_bounds p e l :
  let D := Zpos (digits2_pos p) in
  let r := shr_fexp prec emax (Zpos p) e l in
  0 <= shr_m (fst r) /\
  snd r <= Z.max e (fexp prec emax (D + e)) /\
  e <= snd r /\
  shr_m (fst r) < 2 ^ Z.max 0 (D + e - snd r).
Proof.
  intros D r. subst r. unfold shr_fexp, shr. cbn [Zdigits2]. fold D.
  pose proof (digits2_pos_bounds p) as [Hlo Hhi]. fold D in Hlo, Hhi.
  assert (HD : 0 < D) by reflexivity. clearbody D.
  destruct (fexp prec emax (D + e) - e) as [|k|k] eqn:Hn; cbn [fst snd];
    rewrite ?shr_m_of_loc.
  - replace (D + e - e) with D by lia. rewrite (Z.max_r 0 D) by lia. lia.
  - rewrite shr_m_iter by (rewrite shr_m_of_loc; lia). rewrite shr_m_of_loc.
    split; [apply Z.div_pos; lia|]. split; [lia|]. split; [lia|].
    replace (D + e - (e + Zpos k)) with (D - Zpos k) by lia.
    apply Z.div_lt_upper_bound; [lia|].
    destruct (Z.le_gt_cases (Zpos k) D) as [Hle|Hgt].
    + rewrite (Z.max_r 0) by lia. rewrite <- Z.pow_add_r by lia.
      replace (Zpos k + (D - Zpos k)) with D by lia. lia.
    + rewrite (Z.max_l 0) by lia. rewrite Z.pow_0_r, Z.mul_1_r.
      apply Z.lt_le_trans with (2 ^ D); [lia|]. apply Z.pow_le_mono_r; lia.
  - replace (D + e - e) with D by lia. rewrite (Z.max_r 0 D) by lia. lia.
Qed.

Lemma shr_fexp_zero e : shr_m (fst (shr_fexp prec emax 0 e loc_Exact)) = 0.
Proof.
  unfold shr_fexp, shr. cbn [Zdigits2 shr_record_of_loc].
  destruct (fexp prec emax (0 + e) - e) as [|k|k]; cbn [fst]; try reflexivity.
  rewrite shr_m_iter by (cbn; lia). cbn [shr_m]. apply Z.div_0_l.
  apply Z.pow_nonzero; lia.
Qed.

(** Rounding stays finite when the exponent and the magnitude leave room. *)
Lemma binary_round_aux_finite s p e l B :
  e <= B -> Zpos (digits2_pos p) + e - prec <= B -> emin64 <= B ->
  B + 1 <= emax - prec ->
  bra s (Zpos p) e l = S754_zero s \/ exists m' e', bra s (Zpos p) e l = S754_finite s m' e'.
Proof.
  intros He HD Hm HB. unfold binary_round_aux.
  pose proof (shr_fexp_bounds p e l) as (H0 & Hup & Hlo & Hlt). cbn zeta in *.
  destruct (shr_fexp prec emax (Zpos p) e l) as [mrs' e']. cbn [fst snd] in *.
  set (D := Zpos (digits2_pos p)) in *.
  assert (He' : e' <= B) by (unfold fexp in Hup; fold emin64 in Hup; lia).
  set (m2 := round_nearest_even (shr_m mrs') (loc_of_shr_record mrs')).
  assert (Hm2 : 0 <= m2 <= 2 ^ Z.max 0 (D + e - e')).
  { subst m2. destruct (loc_of_shr_record mrs') as [|[]]; cbn [round_nearest_even]; try lia.
    destruct (Z.even (shr_m mrs')); lia. }
  destruct m2 as [|q|q] eqn:Hq; [left| |lia].
  { pose proof (shr_fexp_zero e') as Hz.
    destruct (shr_fexp prec emax 0 e' loc_Exact) as [mrs'' e'']. cbn [fst] in Hz.
    rewrite Hz. reflexivity. }
  pose proof (shr_fexp_bounds q e' loc_Exact) as (G0 & Gup & Glo & Glt). cbn zeta in *.
  assert (Hdq : Zpos (digits2_pos q) <= Z.max 0 (D + e - e') + 1)
    by (apply digits2_pos_le; lia).
  destruct (shr_fexp prec emax (Zpos q) e' loc_Exact) as [mrs'' e'']. cbn [fst snd] in *.
  assert (He'' : e'' <= B + 1).
  { unfold fexp in Gup. clearbody D. unfold prec in *. lia. }
  destruct (shr_m mrs'') as [|m''|m'']; [left; reflexivity| |lia].
  right. replace (e'' <=? emax - prec) with true by (symmetry; apply Z.leb_le; lia). eauto.
Qed.

Lemma SFleb_abs_one s m e :
  valid_binary (S754_finite s m e) = true ->
  SFleb (SFabs (S754_finite s m e)) (Prim2SF 1) = true ->
  e <= -52 /\ Zpos (digits2_pos m) <= prec.
Proof.
  intros Hv. apply valid_finite in Hv as (_ & Hd & _).
  change (Prim2SF 1) with (S754_finite false 4503599627370496 (-52)).
  unfold SFleb. cbn [SFabs SFcompare].
  destruct (e ?= -52) eqn:Hc; intros H; try discriminate.
  - apply Z.compare_eq in Hc. lia.
  - assert (e < -52) by (apply Z.compare_lt_iff; exact Hc). lia.
Qed.

Lemma SFmul_self_small x :
  valid_binary x = true -> SFleb (SFabs x) (Prim2SF 1) = true ->
  SF64mul (SF64mul x x) (S754_zero false) = S754_zero false.
Proof.
  intros Hv Hle. unfold SF64mul.
  destruct x as [[]|[]| |s m e]; try discriminate; try reflexivity.
  destruct (SFleb_abs_one s m e Hv Hle) as [He Hd].
  cbn [SFmul]. rewrite xorb_nilpotent.
  assert (Hmm : Zpos (digits2_pos (m * m)) <= 106).
  { pose proof (digits2_pos_bounds m) as [_ Hhi].
    assert (Hm : Zpos m < 2 ^ 53).
    { apply Z.lt_le_trans with (1 := Hhi). apply Z.pow_le_mono_r; unfold prec in Hd; lia. }
    change (2 ^ 53) with 9007199254740992 in Hm.
    apply digits2_pos_lt; [lia|].
    rewrite Pos2Z.inj_mul.
    apply Z.le_lt_trans with (9007199254740991 * 9007199254740991).
    - apply Z.mul_le_mono_nonneg; lia.
    - apply Z.ltb_lt. vm_compute. reflexivity. }
  destruct (binary_round_aux_finite false (m * m) (e + e) loc_Exact (-51))
    as [-> | (m' & e' & ->)]; try reflexivity.
  - lia.
  - unfold prec. lia.
  - vm_compute. discriminate.
  - vm_compute. discriminate.
Qed.

End Overflow.

(** A cosine of magnitude at most one squares to a finite number, which
    multiplied by zero is zero. *)
Lemma mul_self_zero (c : float) : (abs c <=? 1) = true -> c * c * 0 = 0.
Proof.
  rewrite leb_spec, abs_spec. intros Hle.
  apply Prim2SF_inj. rewrite !mul_spec, Prim2SF_zero.
  apply SFmul_self_small; auto using Prim2SF_valid.
Qed.

(** [toFixed(1)] picks the integer number of tenths nearest to the exact
    value, the larger one on a tie. *)
Lemma nearest_tenths_spec (m : positive) (e : Z) :
  let n := Z.of_N (nearest_tenths m e) in
  match e with
  | Zneg k =>
      (2 ^ (Zpos k + 1) * n <= 20 * Zpos m + 2 ^ Zpos k < 2 ^ (Zpos k + 1) * (n + 1))%Z
  | _ => n = (10 * Zpos m * 2 ^ e)%Z
  end.
Proof.
  cbn zeta. unfold nearest_tenths. destruct e as [|p|k].
  - rewrite Z2N.id; lia.
  - rewrite Z2N.id; [reflexivity|]. apply Z.mul_nonneg_nonneg; [lia|]. apply Z.pow_nonneg. lia.
  - assert (Hpow : (0 < 2 ^ (Zpos k + 1))%Z) by (apply Z.pow_pos_nonneg; lia).
    assert (Hk : (0 < 2 ^ Zpos k)%Z) by (apply Z.pow_pos_nonneg; lia).
    rewrite Z2N.id by (apply Z.div_pos; lia).
    pose proof (Z.div_mod (20 * Zpos m + 2 ^ Zpos k) (2 ^ (Zpos k + 1))) as Hdm.
    pose proof (Z.mod_pos_bound (20 * Zpos m + 2 ^ Zpos k) (2 ^ (Zpos k + 1)) Hpow) as Hb.
    rewrite Z.mul_add_distr_l, Z.mul_1_r. lia.
Qed.

Example toFixed1_rounds :
  parseFloat (toFixed1 111.19492664455873) = 111.2 /\
  parseFloat (toFixed1 0.25) = 0.3 /\
  parseFloat (toFixed1 1.45) = 1.4 /\
  parseFloat (toFixed1 (-0.04)) = (-0) /\
  parseFloat (toFixed1 1e21) = 1e21 /\
  toFixed1 nan = NumeralNaN.
Proof. repeat split; vm_compute; reflexivity. Qed.

(** * The geo-math module *)

Lemma sub_anti (a b : float) : b - a = - (a - b) \/ (a - b = 0 /\ b - a = 0).
Proof.
  destruct (SFsub_anti (Prim2SF a) (Prim2SF b)) as [Ho|[H1 H2]].
  - left. apply Prim2SF_inj. rewrite opp_spec, !sub_spec. exact Ho.
  - right. split; apply Prim2SF_inj; rewrite sub_spec, Prim2SF_zero; assumption.
Qed.

Lemma is_finite_spec (x : float) :
  is_finite x = true ->
  match Prim2SF x with S754_zero _ | S754_finite _ _ _ => True | _ => False end.
Proof.
  unfold is_finite, is_infinity, is_nan.
  rewrite !FloatAxioms.eqb_spec, abs_spec.
  change (Prim2SF infinity) with (S754_infinity false).
  destruct (Prim2SF x) as [s|s| |s m e]; auto.
  - destruct s; cbn; discriminate.
  - cbn. discriminate.
Qed.

(** A finite number minus itself is [+0]. *)
Lemma sub_diag_finite (x : float) : is_finite x = true -> x - x = 0.
Proof.
  intros Hf. apply is_finite_spec in Hf.
  apply Prim2SF_inj. rewrite sub_spec, Prim2SF_zero. unfold SF64sub.
  destruct (Prim2SF x) as [s|s| |s m e]; try contradiction.
  - destruct s; reflexivity.
  - cbn [SFsub]. rewrite Z.sub_diag. reflexivity.
Qed.

Lemma toRad_opp (x : float) : toRad (- x) = - toRad x.
Proof. unfold toRad. rewrite mul_opp_l, div_opp_l. reflexivity. Qed.

Section Distance.
Context `{H : MathHost}.
Hypothesis conforming : ConformingHost H.

(** The sine of half the angle of a coordinate difference, as it appears
    twice in [calculateDistance]. *)
Lemma half_angle_sine_opp (d : float) :
  Math_sin (toRad (- d) / 2) = - Math_sin (toRad d / 2).
Proof. rewrite toRad_opp, div_opp_l. apply (sin_odd _ conforming). Qed.

Lemma half_angle_square_swap (a b : float) :
  Math_sin (toRad (b - a) / 2) * Math_sin (toRad (b - a) / 2) =
  Math_sin (toRad (a - b) / 2) * Math_sin (toRad (a - b) / 2).
Proof.
  destruct (sub_anti a b) as [-> | [-> ->]]; [|reflexivity].
  rewrite half_angle_sine_opp. apply mul_opp_opp.
Qed.

Lemma half_angle_product_swap (p a b : float) :
  p * Math_sin (toRad (b - a) / 2) * Math_sin (toRad (b - a) / 2) =
  p * Math_sin (toRad (a - b) / 2) * Math_sin (toRad (a - b) / 2).
Proof.
  destruct (sub_anti a b) as [-> | [-> ->]]; [|reflexivity].
  rewrite half_angle_sine_opp, (mul_opp_r p). apply mul_opp_opp.
Qed.

Lemma calculateDistance_symmetric (lat1 lon1 lat2 lon2 : float) :
  calculateDistance lat1 lon1 lat2 lon2 = calculateDistance lat2 lon2 lat1 lon1.
Proof.
  unfold calculateDistance. cbn zeta.
  rewrite (half_angle_square_swap lat1 lat2).
  rewrite (half_angle_product_swap _ lon1 lon2).
  rewrite (mul_comm (Math_cos (toRad lat1)) (Math_cos (toRad lat2))).
  reflexivity.
Qed.

Lemma calculateDistance_same (lat lon : float) :
  is_finite lat = true -> is_finite lon = true ->
  (abs (Math_cos (toRad lat)) <=? 1) = true ->
  calculateDistance lat lon lat lon = 0.
Proof.
  intros Hlat Hlon Hcos. unfold calculateDistance. cbn zeta.
  rewrite (sub_diag_finite lat Hlat), (sub_diag_finite lon Hlon).
  change (toRad 0 / 2) with 0.
  rewrite (sin_zero _ conforming), (mul_self_zero _ Hcos).
  change (Math_sqrt (0 * 0 + 0 * 0)) with 0.
  change (Math_sqrt (1 - (0 * 0 + 0 * 0))) with 1.
  rewrite (atan2_zero _ conforming) by reflexivity.
  reflexivity.
Qed.

Lemma calculateDistance_not_negative (lat1 lon1 lat2 lon2 : float) :
  (calculateDistance lat1 lon1 lat2 lon2 <? 0) = false.
Proof.
  unfold calculateDistance. cbn zeta.
  apply mul_nonneg; [reflexivity|].
  apply mul_nonneg; [reflexivity|].
  apply (atan2_sign _ conforming).
  unfold Math_sqrt. apply signbit_sqrt_add, signbit_mul_self.
Qed.

End Distance.

Lemma mul_nan_l (x : float) : nan * x = nan.
Proof. apply Prim2SF_inj. rewrite mul_spec. reflexivity. Qed.

Lemma mul_nan_r (x : float) : x * nan = nan.
Proof. rewrite mul_comm. apply mul_nan_l. Qed.

Lemma add_nan_l (x : float) : nan + x = nan.
Proof. apply Prim2SF_inj. rewrite add_spec. reflexivity. Qed.

(** On every host that follows ECMA-262 on infinite and [NaN] arguments, the
    distance to a latitude whose conversion to radians overflows is [NaN]. *)
Lemma calculateDistance_overflowing_latitude `{H : MathHost}
    (lat1 lon1 lat2 lon2 : float) :
  Math_sin infinity = nan -> Math_cos infinity = nan ->
  (forall x, Math_atan2 nan x = nan) ->
  toRad (lat2 - lat1) = infinity -> toRad lat2 = infinity ->
  calculateDistance lat1 lon1 lat2 lon2 = nan.
Proof.
  intros Hsin Hcos Hatan Hd Hl. unfold calculateDistance. cbn zeta.
  rewrite Hd, Hl. change (infinity / 2) with infinity.
  rewrite Hsin, Hcos, !mul_nan_r, !mul_nan_l, add_nan_l.
  change (Math_sqrt nan) with nan. rewrite Hatan. reflexivity.
Qed.

Example overflowing_latitude_sample :
  toRad (1e308 - 0.01) = infinity /\ toRad 1e308 = infinity.
Proof. split; vm_compute; reflexivity. Qed.

(** The reference host conforms. *)
Lemma opp_ltb_zero (x : float) : (- x <? 0) = (0 <? x).
Proof.
  rewrite !ltb_spec, opp_spec, Prim2SF_zero.
  destruct (Prim2SF x) as [[]|[]| |[] m e]; reflexivity.
Qed.

Lemma zero_ltb_opp (x : float) : (0 <? - x) = (x <? 0).
Proof.
  rewrite !ltb_spec, opp_spec, Prim2SF_zero.
  destruct (Prim2SF x) as [[]|[]| |[] m e]; reflexivity.
Qed.

Lemma ltb_zero_asym (x : float) : (x <? 0) = true -> (0 <? x) = false.
Proof.
  rewrite !ltb_spec, Prim2SF_zero.
  destruct (Prim2SF x) as [[]|[]| |[] m e]; (reflexivity || discriminate).
Qed.

Lemma is_nan_opp (x : float) : is_nan (- x) = is_nan x.
Proof.
  unfold is_nan. rewrite !FloatAxioms.eqb_spec, opp_spec. f_equal.
  unfold SFeqb. rewrite (SFcompare_antisym (SFopp (Prim2SF x))).
  destruct (Prim2SF x) as [[]|[]| |[] m e]; cbn [SFopp SFcompare negb option_map]; try reflexivity.
  - rewrite Z.compare_refl. change (Pos.compare_cont Eq m m) with (m ?= m)%positive.
    rewrite Pos.compare_refl. reflexivity.
  - rewrite Z.compare_refl. change (Pos.compare_cont Eq m m) with (m ?= m)%positive.
    rewrite Pos.compare_refl. reflexivity.
Qed.

Lemma abs_opp (x : float) : abs (- x) = abs x.
Proof.
  apply Prim2SF_inj. rewrite !abs_spec, opp_spec.
  destruct (Prim2SF x) as [[]|[]| |[] m e]; reflexivity.
Qed.

Lemma is_infinity_opp (x : float) : is_infinity (- x) = is_infinity x.
Proof. unfold is_infinity. rewrite abs_opp. reflexivity. Qed.

Lemma Reference_sin_odd (x : float) : Reference.sin (- x) = - Reference.sin x.
Proof.
  unfold Reference.sin.
  rewrite is_nan_opp, is_infinity_opp, opp_ltb_zero, zero_ltb_opp, opp_involutive.
  destruct (is_nan x || is_infinity x); [reflexivity|].
  destruct (x <? 0) eqn:Hneg.
  - rewrite (ltb_zero_asym x Hneg), opp_involutive. reflexivity.
  - destruct (0 <? x); reflexivity.
Qed.

Lemma zero_ltb_signbit (x : float) : (0 <? x) = true -> signbit x = false /\ is_nan x = false.
Proof.
  rewrite is_nan_spec, signbit_spec, ltb_spec, Prim2SF_zero.
  destruct (Prim2SF x) as [[]|[]| |[] m e]; cbn; intros; split; congruence.
Qed.

Lemma Reference_atan2_zero (x : float) : (0 <? x) = true -> Reference.atan2 0 x = 0.
Proof.
  intros Hx. destruct (zero_ltb_signbit x Hx) as [Hs Hn].
  unfold Reference.atan2, Reference.angle.
  change (is_nan 0) with false. change (abs 0) with 0. change (is_zero 0) with true.
  change (signbit 0) with false.
  cbn [orb]. rewrite Hn, Hs. reflexivity.
Qed.

Lemma Reference_atan2_sign (y x : float) :
  signbit y = false -> (Reference.atan2 y x <? 0) = false.
Proof.
  intros Hy. unfold Reference.atan2. rewrite Hy.
  destruct (is_nan y || is_nan x); [reflexivity|]. apply abs_nonneg.
Qed.

Lemma referenceHost_conforming : ConformingHost referenceHost.
Proof.
  split.
  - reflexivity.
  - exact Reference_atan2_zero.
  - exact Reference_sin_odd.
  - exact Reference_atan2_sign.
Qed.

(** * [Array.prototype.sort] *)
Section Sort.
Context {A : Type} (comparefn : A -> A -> float).

Lemma sort_insert_Permutation (x : A) (l : list A) :
  sort_insert comparefn x l ≡ₚ x :: l.
Proof.
  induction l as [|y l IH]; cbn [sort_insert]; [reflexivity|].
  destruct (comparefn y x <? 0); [|reflexivity].
  rewrite IH. apply Permutation_swap.
Qed.

Lemma Array_sort_Permutation (l : list A) : Array_sort comparefn l ≡ₚ l.
Proof.
  induction l as [|x l IH]; [reflexivity|].
  unfold Array_sort in *. cbn [foldr].
  rewrite sort_insert_Permutation. rewrite IH. reflexivity.
Qed.

Lemma elem_of_Array_sort (x : A) (l : list A) : x ∈ Array_sort comparefn l <-> x ∈ l.
Proof. rewrite Array_sort_Permutation. reflexivity. Qed.

Variable R : relation A.

Lemma sort_insert_HdRel (y x : A) (l : list A) :
  R y x -> HdRel R y l -> HdRel R y (sort_insert comparefn x l).
Proof.
  intros Hyx Hl. destruct l as [|z l]; cbn [sort_insert]; [constructor; exact Hyx|].
  destruct (comparefn z x <? 0); constructor; [|exact Hyx].
  inversion Hl; assumption.
Qed.

(** When the comparator agrees with [R] on the elements at hand, insertion
    keeps the list sorted. *)
Lemma sort_insert_Sorted (x : A) (l : list A) :
  (forall y, y ∈ l -> if comparefn y x <? 0 then R y x else R x y) ->
  Sorted R l -> Sorted R (sort_insert comparefn x l).
Proof.
  intros Hcmp Hl. induction Hl as [|y l Hl IH Hhd]; cbn [sort_insert].
  - repeat constructor.
  - pose proof (Hcmp y (list_elem_of_here _ _)) as Hy.
    destruct (comparefn y x <? 0).
    + constructor.
      * apply IH. intros z Hz. apply Hcmp. right. exact Hz.
      * apply sort_insert_HdRel; assumption.
    + repeat constructor; assumption.
Qed.

Lemma Array_sort_Sorted (l : list A) :
  (forall x y, x ∈ l -> y ∈ l -> if comparefn y x <? 0 then R y x else R x y) ->
  Sorted R (Array_sort comparefn l).
Proof.
  induction l as [|x l IH]; intros Hcmp; [constructor|].
  change (Array_sort comparefn (x :: l))
    with (sort_insert comparefn x (Array_sort comparefn l)).
  apply sort_insert_Sorted.
  - intros y Hy. rewrite elem_of_Array_sort in Hy.
    apply Hcmp; [left|right; exact Hy].
  - apply IH. intros a b Ha Hb. apply Hcmp; right; assumption.
Qed.

Lemma Sorted_take (n : nat) (l : list A) : Sorted R l -> Sorted R (take n l).
Proof.
  intros Hl. revert n. induction Hl as [|x l Hl IH Hhd]; intros [|n]; cbn [take];
    try constructor.
  - apply IH.
  - destruct Hhd as [|y l Hxy]; [destruct n; constructor|].
    destruct n; constructor. exact Hxy.
Qed.

End Sort.

Lemma byDistance_agrees (a b : HospitalData.t) :
  is_nan (HospitalData.distance a) = false ->
  is_nan (HospitalData.distance b) = false ->
  if byDistance b a <? 0 then distance_le b a else distance_le a b.
Proof.
  intros Ha Hb. unfold byDistance, distance_le. rewrite sub_ltb_zero.
  destruct (_ <? _) eqn:Hlt.
  - apply ltb_leb. exact Hlt.
  - apply ltb_false_leb; assumption.
Qed.

(** In a list of two or more records that is non-decreasing by distance,
    every distance is a number. *)
Lemma Sorted_distance_le_numbers (l : list HospitalData.t) :
  Sorted distance_le l -> (2 <= length l)%nat ->
  Forall (λ hospital, is_nan (HospitalData.distance hospital) = false) l.
Proof.
  induction 1 as [|a l Hs IH Hhd]; cbn [length]; [lia|].
  intros Hlen. destruct Hhd as [|b l Hab]; [cbn in Hlen; lia|].
  destruct (leb_not_nan _ _ Hab) as [Ha Hb].
  constructor; [exact Ha|].
  destruct l as [|c l]; [repeat constructor; exact Hb|].
  apply IH. cbn. lia.
Qed.

(** * The result pipeline *)

Section PipelineFacts.
Context `{H : MathHost}.
Implicit Types (elements : list Raw.Element) (userLocation : Coords.t).
Implicit Types (element : Raw.Element) (hospital : HospitalData.t).

Lemma has_name_tags element :
  has_name element = true ->
  exists tags, Raw.tags element = Some tags /\ truthy_opt_string (tags !! "name") = true.
Proof. unfold has_name. destruct (Raw.tags element) as [tags|]; [eauto|discriminate]. Qed.

Lemma toHospitalData_named userLocation element :
  has_name element = true ->
  toHospitalData userLocation element = Some (recordOf userLocation element).
Proof.
  intros Hn. destruct (has_name_tags element Hn) as (tags & Ht & _).
  unfold toHospitalData, recordOf. rewrite Ht. reflexivity.
Qed.

(** The [.map] callback never throws on the elements the first [.filter]
    lets through. *)
Lemma mapM_named userLocation elements :
  mapM (toHospitalData userLocation) (filter (λ element, has_name element) elements) =
  Some (recordOf userLocation <$> filter (λ element, has_name element) elements).
Proof.
  apply mapM_Some. apply Forall2_fmap_r, Forall_Forall2_diag.
  apply Forall_forall. intros element He.
  apply list_elem_of_filter in He as [Hn _].
  apply toHospitalData_named, Is_true_true, Hn.
Qed.

Lemma locatedHospitals_eq elements userLocation :
  locatedHospitals elements userLocation =
  Some (filter (λ hospital, has_location hospital)
          (recordOf userLocation <$> filter (λ element, has_name element) elements)).
Proof. unfold locatedHospitals. rewrite mapM_named. reflexivity. Qed.

Lemma nearbyHospitals_eq elements userLocation :
  nearbyHospitals elements userLocation =
  Some (take 10 (Array_sort byDistance
    (filter (λ hospital, has_location hospital)
       (recordOf userLocation <$> filter (λ element, has_name element) elements)))).
Proof. unfold nearbyHospitals. rewrite locatedHospitals_eq. reflexivity. Qed.

(** The records that reach [.sort] are those of the named elements whose
    two resolved coordinates are truthy. *)
Lemma elem_of_locatedHospitals elements userLocation located hospital :
  locatedHospitals elements userLocation = Some located ->
  hospital ∈ located <->
  exists element tags,
    element ∈ elements /\ Raw.tags element = Some tags /\
    truthy_opt_string (tags !! "name") = true /\
    hospital = hospitalOf userLocation element tags /\
    has_location hospital = true.
Proof.
  rewrite locatedHospitals_eq. intros [= <-].
  rewrite list_elem_of_filter, list_elem_of_fmap. split.
  - intros (Hloc & element & -> & He).
    apply list_elem_of_filter in He as [Hn He]. apply Is_true_true in Hn, Hloc.
    destruct (has_name_tags element Hn) as (tags & Ht & Hname).
    exists element, tags. unfold recordOf in *. rewrite Ht in *. auto.
  - intros (element & tags & He & Ht & Hname & -> & Hloc).
    split; [apply Is_true_true, Hloc|].
    exists element. split.
    + unfold recordOf. rewrite Ht. reflexivity.
    + apply list_elem_of_filter. split; [|exact He].
      apply Is_true_true. unfold has_name. rewrite Ht. exact Hname.
Qed.

Lemma nearbyHospitals_located elements userLocation :
  exists located,
    locatedHospitals elements userLocation = Some located /\
    nearbyHospitals elements userLocation = Some (take 10 (Array_sort byDistance located)).
Proof.
  eexists. split; [apply locatedHospitals_eq|apply nearbyHospitals_eq].
Qed.

(** Every record of the result comes from a named element of the response
    and has two truthy coordinates. *)
Lemma elem_of_nearbyHospitals elements userLocation out hospital :
  nearbyHospitals elements userLocation = Some out ->
  hospital ∈ out ->
  exists element tags,
    element ∈ elements /\ Raw.tags element = Some tags /\
    truthy_opt_string (tags !! "name") = true /\
    hospital = hospitalOf userLocation element tags /\
    has_location hospital = true.
Proof.
  destruct (nearbyHospitals_located elements userLocation) as (located & Hl & ->).
  intros [= <-] Hin.
  apply (elem_of_locatedHospitals _ _ _ _ Hl).
  apply subseteq_take in Hin. apply elem_of_Array_sort in Hin. exact Hin.
Qed.

Lemma has_location_coordinates hospital :
  has_location hospital = true ->
  exists x y,
    HospitalData.location hospital = {| HospitalData.lat := Some x; HospitalData.lng := Some y |} /\
    truthy_number x = true /\ truthy_number y = true.
Proof.
  unfold has_location. destruct (HospitalData.location hospital) as [[x|] [y|]]; cbn;
    rewrite ?andb_false_r; try discriminate.
  intros [Hx Hy]%andb_true_iff. eauto.
Qed.

End PipelineFacts.

(** * The claims *)

(** ** The result list: size and order *)

Section ResultList.
Context `{H : MathHost}.
Implicit Types (elements : list Raw.Element) (userLocation : Coords.t).

(** C1 (amended).  For every response and user coordinate the pipeline
    returns a list of at most 10 records; the distances along it are
    non-decreasing whenever none of the records that reach the sort has the
    distance [NaN]. *)
Theorem nearbyHospitals_capped_and_sorted elements userLocation :
  exists located out,
    locatedHospitals elements userLocation = Some located /\
    nearbyHospitals elements userLocation = Some out /\
    (length out <= 10)%nat /\
    (Forall (λ hospital, is_nan (HospitalData.distance hospital) = false) located ->
     Sorted distance_le out).
Proof.
  destruct (nearbyHospitals_located elements userLocation) as (located & Hl & Hn).
  exists located, (take 10 (Array_sort byDistance located)).
  split; [exact Hl|]. split; [exact Hn|]. split.
  - rewrite length_take. lia.
  - intros Hnan. apply Sorted_take, Array_sort_Sorted.
    intros a b Ha Hb. rewrite Forall_forall in Hnan.
    apply byDistance_agrees; auto.
Qed.

(** Every record of the result has a non-empty name and two truthy
    coordinates (the invariant of the data model). *)
Lemma nearbyHospitals_named_and_located elements userLocation out hospital :
  nearbyHospitals elements userLocation = Some out ->
  hospital ∈ out ->
  truthy_opt_string (HospitalData.name hospital) = true /\
  has_location hospital = true.
Proof.
  intros Hout Hin.
  destruct (elem_of_nearbyHospitals _ _ _ _ Hout Hin)
    as (element & tags & _ & _ & Hname & -> & Hloc).
  split; [exact Hname|exact Hloc].
Qed.

End ResultList.

(** C1, witness: three nodes, returned nearest first. *)
Lemma nearbyHospitals_capped_and_sorted_witness :
  exists out,
    nearbyHospitals (H := referenceHost) Sample.nearby Sample.user = Some out /\
    Sorted distance_le out.
Proof.
  destruct (nearbyHospitals_capped_and_sorted (H := referenceHost) Sample.nearby Sample.user)
    as (located & out & Hl & Hn & _ & Hs).
  exists out. split; [exact Hn|]. apply Hs.
  vm_compute in Hl. injection Hl as <-.
  repeat constructor.
Defined.

(** C1, counterexample: the second of three nodes has a latitude whose
    conversion to radians overflows, so its distance is [NaN].  Every
    comparison with it is read as a tie and 3.9 stays ahead of 1.9; and in
    whatever order an engine leaves the three records, the list is not
    non-decreasing, since no number is at most [NaN] or at least [NaN]. *)
Lemma nearbyHospitals_unsorted_with_NaN :
  exists out,
    nearbyHospitals (H := referenceHost) Sample.overflowing Sample.user = Some out /\
    HospitalData.distance <$> out = [3.9; nan; 1.9] /\
    (3.9 <=? 1.9) = false /\
    ~ Sorted distance_le out /\
    forall reordered, reordered ≡ₚ out -> ~ Sorted distance_le reordered.
Proof.
  eexists. split; [apply nearbyHospitals_eq|].
  split; [vm_compute; reflexivity|]. split; [reflexivity|].
  assert (Hany : forall reordered,
    reordered ≡ₚ take 10 (Array_sort byDistance
      (filter (λ hospital, has_location hospital)
         (recordOf Sample.user <$>
            filter (λ element, has_name element) Sample.overflowing))) ->
    ~ Sorted distance_le reordered).
  { intros reordered Hperm Hs.
    apply Sorted_distance_le_numbers in Hs.
    - rewrite Hperm in Hs. vm_compute in Hs.
      inversion Hs as [|? ? _ Hs']. inversion Hs' as [|? ? Hnan _]. discriminate.
    - rewrite (Permutation_length Hperm). vm_compute. lia. }
  split; [apply Hany; reflexivity|exact Hany].
Qed.

(** The scenario of the specification: of twelve nodes at distinct distances
    the ten nearest are returned, nearest first. *)
Example twelve_nodes_give_ten :
  fmap (M := list) (λ hospital, (HospitalData.id hospital, HospitalData.distance hospital)) <$>
    nearbyHospitals (H := referenceHost) Sample.twelve Sample.user
  = Some [("2", 1.1); ("11", 2.2); ("4", 3.3); ("9", 4.4); ("6", 5.6);
          ("7", 6.7); ("8", 7.8); ("5", 8.9); ("10", 10); ("3", 11.1)]%string.
Proof. vm_compute. reflexivity. Qed.

(** ** The distance function *)

Section DistanceClaim.
Context `{H : MathHost}.

(** C2 (amended).  On a host whose sine is odd and whose two-argument
    arctangent is not negative on the upper half plane, [calculateDistance]
    is symmetric and never negative: it is at least 0 whenever it is a
    number.  On identical finite coordinates it returns 0 provided the
    cosine of the latitude has magnitude at most 1, which fails when the
    conversion of the latitude to radians overflows. *)
Theorem calculateDistance_properties (lat1 lon1 lat2 lon2 : float) :
  ConformingHost H ->
  calculateDistance lat1 lon1 lat2 lon2 = calculateDistance lat2 lon2 lat1 lon1 /\
  (calculateDistance lat1 lon1 lat2 lon2 <? 0) = false /\
  (is_nan (calculateDistance lat1 lon1 lat2 lon2) = false ->
   (0 <=? calculateDistance lat1 lon1 lat2 lon2) = true) /\
  (is_finite lat1 = true -> is_finite lon1 = true ->
   (abs (Math_cos (toRad lat1)) <=? 1) = true ->
   calculateDistance lat1 lon1 lat1 lon1 = 0).
Proof.
  intros Hc. split; [apply calculateDistance_symmetric, Hc|].
  split; [apply calculateDistance_not_negative, Hc|].
  split; [apply nonneg_leb, calculateDistance_not_negative, Hc|].
  apply calculateDistance_same, Hc.
Qed.

End DistanceClaim.

(** C2, witness: Paris and London on the reference host. *)
Lemma calculateDistance_properties_witness :
  calculateDistance (H := referenceHost) 48.8566 2.3522 51.5074 (-0.1278)
    = calculateDistance (H := referenceHost) 51.5074 (-0.1278) 48.8566 2.3522 /\
  (0 <=? calculateDistance (H := referenceHost) 48.8566 2.3522 51.5074 (-0.1278)) = true /\
  calculateDistance (H := referenceHost) 48.8566 2.3522 48.8566 2.3522 = 0.
Proof.
  destruct (calculateDistance_properties (H := referenceHost) 48.8566 2.3522 51.5074 (-0.1278)
              referenceHost_conforming) as (Hsym & _ & Hle & Hsame).
  split; [exact Hsym|]. split; [apply Hle; reflexivity|]. apply Hsame; reflexivity.
Defined.

(** C2, counterexample: two finite inputs on which the distance is [NaN],
    neither 0 nor at least 0.  The latitude 1e308 converts to infinite
    radians and the cosine of infinity is [NaN], so the coordinate is at
    distance [NaN] from itself.  For (8, 0) and its antipode (-8, 180) the
    rounded sum [a] exceeds 1 and the square root of [1 - a] is [NaN]. *)
Lemma calculateDistance_NaN_on_finite_inputs :
  let d := calculateDistance (H := referenceHost) 1e308 0 1e308 0 in
  let antipodal := calculateDistance (H := referenceHost) 8 0 (-8) 180 in
  is_finite 1e308 = true /\ toRad 1e308 = infinity /\
  d = nan /\ d <> 0 /\ (0 <=? d) = false /\
  antipodal = nan /\ (0 <=? antipodal) = false.
Proof. vm_compute. repeat split. discriminate. Qed.

(** One degree of latitude is about 111 km. *)
Example one_degree_of_latitude :
  parseFloat (toFixed1 (calculateDistance (H := referenceHost) 0 0 1 0)) = 111.2.
Proof. vm_compute. reflexivity. Qed.

(** ** The records *)

Section Records.
Context `{H : MathHost}.
Implicit Types (elements : list Raw.Element) (userLocation : Coords.t).

(** An element of the response reaches the sort exactly when it is named and
    both resolved coordinates are truthy. *)
Lemma located_iff_truthy elements userLocation located element tags :
  locatedHospitals elements userLocation = Some located ->
  element ∈ elements -> Raw.tags element = Some tags ->
  hospitalOf userLocation element tags ∈ located <->
  truthy_opt_string (tags !! "name") = true /\
  truthy_opt_number (resolve_lat element) = true /\
  truthy_opt_number (resolve_lng element) = true.
Proof.
  intros Hl He Ht. rewrite (elem_of_locatedHospitals _ _ _ _ Hl). split.
  - intros (element' & tags' & _ & _ & Hname & Heq & Hloc).
    rewrite Heq in Hloc. unfold has_location in Hloc. cbn in Hloc.
    apply andb_true_iff in Hloc as [Hlat Hlng].
    assert (Hn : HospitalData.name (hospitalOf userLocation element tags) = tags' !! "name")
      by (rewrite Heq; reflexivity).
    cbn in Hn. rewrite Hn.
    assert (Hla : HospitalData.location (hospitalOf userLocation element tags) =
                  HospitalData.location (hospitalOf userLocation element' tags'))
      by (rewrite Heq; reflexivity).
    cbn in Hla. injection Hla as -> ->. auto.
  - intros (Hname & Hlat & Hlng). exists element, tags.
    repeat split; auto. unfold has_location. cbn. rewrite Hlat, Hlng. reflexivity.
Qed.

(** C4.  An element without a [name] tag yields no record of the result. *)
Theorem unnamed_element_absent elements userLocation element :
  Raw.tags element ≫= (λ tags, tags !! "name") = None ->
  exists out,
    nearbyHospitals elements userLocation = Some out /\
    forall hospital, hospital ∈ out -> toHospitalData userLocation element ≠ Some hospital.
Proof.
  intros Hnone. eexists. split; [apply nearbyHospitals_eq|].
  intros hospital Hin Hsome.
  destruct (elem_of_nearbyHospitals _ _ _ _ (nearbyHospitals_eq _ _) Hin)
    as (element' & tags' & _ & _ & Hname & Heq & _).
  unfold toHospitalData in Hsome.
  destruct (Raw.tags element) as [tags|]; [|discriminate].
  cbn in Hnone, Hsome. injection Hsome as Hsome.
  assert (Hn : HospitalData.name hospital = tags' !! "name") by (rewrite Heq; reflexivity).
  rewrite <- Hsome in Hn. cbn in Hn. rewrite <- Hn, Hnone in Hname. discriminate.
Qed.

(** C5.  The emergency flag of a record is true exactly when the
    [emergency] tag of its element is the string "yes"; any other value, and
    a missing tag, give false. *)
Theorem emergency_flag elements userLocation :
  exists out,
    nearbyHospitals elements userLocation = Some out /\
    forall hospital, hospital ∈ out ->
      exists element tags,
        element ∈ elements /\ Raw.tags element = Some tags /\
        hospital = hospitalOf userLocation element tags /\
        (HospitalData.emergency hospital = true <-> tags !! "emergency" = Some "yes"%string) /\
        (tags !! "emergency" ≠ Some "yes"%string -> HospitalData.emergency hospital = false).
Proof.
  eexists. split; [apply nearbyHospitals_eq|].
  intros hospital Hin.
  destruct (elem_of_nearbyHospitals _ _ _ _ (nearbyHospitals_eq _ _) Hin)
    as (element & tags & He & Ht & _ & -> & _).
  exists element, tags. repeat split; auto; cbn [HospitalData.emergency hospitalOf].
  - unfold is_yes. destruct (tags !! "emergency") as [s|]; [|discriminate].
    intros Heq%String.eqb_eq. congruence.
  - intros ->. reflexivity.
  - unfold is_yes. destruct (tags !! "emergency") as [s|]; [|reflexivity].
    intros Hne. apply String.eqb_neq. congruence.
Qed.

(** C6 (amended).  Every record of the result is the record of an element
    of the response, located at the resolved coordinate of that element, and
    its distance is [calculateDistance] from the user to that coordinate,
    rounded by [toFixed(1)] and read back by [parseFloat]; it is never
    negative, and at least 0 whenever it is a number. *)
Theorem distance_rounded_not_negative elements userLocation :
  ConformingHost H ->
  exists out,
    nearbyHospitals elements userLocation = Some out /\
    forall hospital, hospital ∈ out ->
      exists element tags x y,
        element ∈ elements /\ Raw.tags element = Some tags /\
        hospital = hospitalOf userLocation element tags /\
        resolve_lat element = Some x /\ resolve_lng element = Some y /\
        HospitalData.location hospital =
          {| HospitalData.lat := Some x; HospitalData.lng := Some y |} /\
        HospitalData.distance hospital =
          parseFloat (toFixed1
            (calculateDistance (Coords.lat userLocation) (Coords.lng userLocation) x y)) /\
        (HospitalData.distance hospital <? 0) = false /\
        (is_nan (HospitalData.distance hospital) = false ->
         (0 <=? HospitalData.distance hospital) = true).
Proof.
  intros Hc. eexists. split; [apply nearbyHospitals_eq|].
  intros hospital Hin.
  destruct (elem_of_nearbyHospitals _ _ _ _ (nearbyHospitals_eq _ _) Hin)
    as (element & tags & He & Ht & _ & Heq & Hloc).
  destruct (has_location_coordinates _ Hloc) as (x & y & Hxy & _).
  assert (Hres : resolve_lat element = Some x /\ resolve_lng element = Some y).
  { rewrite Heq in Hxy. cbn in Hxy. injection Hxy as Hx Hy. auto. }
  destruct Hres as [Hx Hy].
  assert (Hd : HospitalData.distance hospital =
    parseFloat (toFixed1
      (calculateDistance (Coords.lat userLocation) (Coords.lng userLocation) x y))).
  { rewrite Heq. cbn [HospitalData.distance hospitalOf]. rewrite Hx, Hy. reflexivity. }
  assert (Hnn : (HospitalData.distance hospital <? 0) = false).
  { rewrite Hd. apply parseFloat_toFixed1_nonneg, calculateDistance_not_negative, Hc. }
  exists element, tags, x, y.
  repeat split; auto. apply nonneg_leb, Hnn.
Qed.

(** C7 (amended).  Address and phone are the tag when it is a non-empty
    string, and the sentinel when the tag is absent or empty; rating,
    specialties and open-now are the fixed placeholders. *)
Theorem placeholders_and_sentinels elements userLocation :
  exists out,
    nearbyHospitals elements userLocation = Some out /\
    forall hospital, hospital ∈ out ->
      exists element tags,
        element ∈ elements /\ Raw.tags element = Some tags /\
        hospital = hospitalOf userLocation element tags /\
        (forall street, tags !! "addr:street" = Some street -> street ≠ ""%string ->
           HospitalData.address hospital = street) /\
        (tags !! "addr:street" = None \/ tags !! "addr:street" = Some ""%string ->
           HospitalData.address hospital = "Address not available"%string) /\
        (forall number, tags !! "phone" = Some number -> number ≠ ""%string ->
           HospitalData.phone hospital = number) /\
        (tags !! "phone" = None \/ tags !! "phone" = Some ""%string ->
           HospitalData.phone hospital = "N/A"%string) /\
        HospitalData.rating hospital = 4 /\
        HospitalData.specialties hospital = ["General Medicine"%string] /\
        HospitalData.openNow hospital = true.
Proof.
  eexists. split; [apply nearbyHospitals_eq|].
  intros hospital Hin.
  destruct (elem_of_nearbyHospitals _ _ _ _ (nearbyHospitals_eq _ _) Hin)
    as (element & tags & He & Ht & _ & -> & _).
  exists element, tags. cbn.
  assert (Htag : forall key fallback,
    (forall s, tags !! key = Some s -> s ≠ ""%string -> tag_or (tags !! key) fallback = s) /\
    (tags !! key = None \/ tags !! key = Some ""%string -> tag_or (tags !! key) fallback = fallback)).
  { intros key fallback. unfold tag_or, truthy_opt_string. split.
    - intros s -> Hs. apply String.eqb_neq in Hs. rewrite Hs. reflexivity.
    - intros [-> | ->]; reflexivity. }
  destruct (Htag "addr:street"%string "Address not available"%string) as [Ha1 Ha2].
  destruct (Htag "phone"%string "N/A"%string) as [Hp1 Hp2].
  repeat split; auto.
Qed.

(** C10.  Coordinates are tested for truthiness, not presence.  A named
    element of the response whose resolved latitude or longitude is zero
    yields no record of the result, and a direct latitude (or longitude) of
    zero is replaced by that of the centre. *)
Theorem zero_coordinate_is_falsy elements userLocation element tags (z : float) :
  is_zero z = true ->
  element ∈ elements -> Raw.tags element = Some tags ->
  truthy_opt_string (tags !! "name") = true ->
  (resolve_lat element = Some z \/ resolve_lng element = Some z ->
   exists out,
     nearbyHospitals elements userLocation = Some out /\
     hospitalOf userLocation element tags ∉ out) /\
  (Raw.lat element = Some z ->
   resolve_lat element = Raw.center element ≫= Raw.center_lat) /\
  (Raw.lon element = Some z ->
   resolve_lng element = Raw.center element ≫= Raw.center_lon).
Proof.
  intros Hz _ _ _. split; [|split].
  - intros Hres. eexists. split; [apply nearbyHospitals_eq|].
    intros Hin.
    destruct (elem_of_nearbyHospitals _ _ _ _ (nearbyHospitals_eq _ _) Hin)
      as (_ & _ & _ & _ & _ & _ & Hloc).
    unfold has_location in Hloc. cbn in Hloc.
    apply andb_true_iff in Hloc as [Hlat Hlng].
    destruct Hres as [Hr|Hr].
    + rewrite Hr in Hlat. cbn in Hlat. unfold truthy_number in Hlat.
      rewrite Hz in Hlat. discriminate.
    + rewrite Hr in Hlng. cbn in Hlng. unfold truthy_number in Hlng.
      rewrite Hz in Hlng. discriminate.
  - intros Hlat. unfold resolve_lat, or_else. rewrite Hlat. cbn.
    unfold truthy_number. rewrite Hz. reflexivity.
  - intros Hlon. unfold resolve_lng, or_else. rewrite Hlon. cbn.
    unfold truthy_number. rewrite Hz. reflexivity.
Qed.

End Records.

(** C3, the failing input: a named node on the equator carries a direct
    coordinate, its latitude 0 is read as missing, and no record of it
    reaches the sort. *)
Lemma equator_node_dropped :
  has_name Sample.equator = true /\
  Raw.lat Sample.equator = Some 0 /\ Raw.lon Sample.equator = Some 10.5 /\
  resolve_lat Sample.equator = None /\ resolve_lng Sample.equator = Some 10.5 /\
  locatedHospitals (H := referenceHost) [Sample.equator] Sample.user = Some [] /\
  nearbyHospitals (H := referenceHost) [Sample.equator] Sample.user = Some [].
Proof. vm_compute. repeat split. Qed.

(** C4, witness: a node without tags next to a named one. *)
Lemma unnamed_element_absent_witness :
  exists out,
    nearbyHospitals (H := referenceHost)
      [Sample.node 5 0.045 0.01 ∅; Sample.named 1 0.045 0.01] Sample.user = Some out /\
    forall hospital, hospital ∈ out ->
      toHospitalData Sample.user (Sample.node 5 0.045 0.01 ∅) ≠ Some hospital.
Proof.
  apply (unnamed_element_absent (H := referenceHost)). reflexivity.
Defined.

(** C6, witness: the distances of the three sample nodes. *)
Lemma distance_rounded_not_negative_witness :
  exists out,
    nearbyHospitals (H := referenceHost) Sample.nearby Sample.user = Some out /\
    Forall (λ hospital, (HospitalData.distance hospital <? 0) = false) out.
Proof.
  destruct (distance_rounded_not_negative (H := referenceHost) Sample.nearby Sample.user
              referenceHost_conforming) as (out & Hout & Hall).
  exists out. split; [exact Hout|]. apply Forall_forall. intros hospital Hin.
  destruct (Hall hospital Hin) as (_ & _ & _ & _ & _ & _ & _ & _ & _ & _ & _ & Hnn & _).
  exact Hnn.
Defined.

(** C6, counterexample: the record of a node whose latitude overflows, and
    the record of a node at the antipode of the user, have the distance
    [NaN], which is not at least 0. *)
Lemma distance_NaN_not_at_least_zero :
  fmap (M := list) HospitalData.distance <$>
    nearbyHospitals (H := referenceHost) [Sample.named 2 1e308 0.01] Sample.user
  = Some [nan] /\
  fmap (M := list) HospitalData.distance <$>
    nearbyHospitals (H := referenceHost) [Sample.named 3 (-8) 180]
      {| Coords.lat := 8; Coords.lng := 0 |}
  = Some [nan] /\
  (0 <=? nan) = false.
Proof. vm_compute. repeat split. Qed.

(** C7, counterexample: the street tag is present and empty, and the address
    is the sentinel, not the tag. *)
Lemma empty_street_gets_sentinel :
  Raw.tags Sample.unaddressed ≫= (λ tags, tags !! "addr:street") = Some ""%string /\
  fmap (M := list) HospitalData.address <$>
    nearbyHospitals (H := referenceHost) [Sample.unaddressed] Sample.user
  = Some ["Address not available"%string].
Proof. vm_compute. split; reflexivity. Qed.

(** C10, witness: a way whose centre lies on the equator. *)
Lemma zero_coordinate_is_falsy_witness :
  exists out,
    nearbyHospitals (H := referenceHost) [Sample.equator_way] Sample.user = Some out /\
    hospitalOf Sample.user Sample.equator_way {[ "name" := "Clinic"%string ]} ∉ out.
Proof.
  apply (zero_coordinate_is_falsy (H := referenceHost) [Sample.equator_way] Sample.user
           Sample.equator_way {[ "name" := "Clinic"%string ]} 0 eq_refl).
  - left.
  - reflexivity.
  - reflexivity.
  - left. reflexivity.
Defined.

(** ** The session *)

Section Session.
Context `{H : MathHost}.

(** C8 (amended).  When the request rejects, the body does not parse or the
    document has no [elements], the generic message becomes the error, the
    hospitals list stays empty and the error view is rendered; whenever an
    error is set the hospitals list is empty; and the status of the response
    is never inspected. *)
Theorem query_failure_sets_error (net : Network) (latitude longitude : float) :
  let userLocation := {| Coords.lat := latitude; Coords.lng := longitude |} in
  let failed :=
    {| location := Some userLocation; hospitals := []; loading := false;
       error := Some "Failed to fetch nearby hospitals. Please try again later."%string |} in
  (net (overpassRequest userLocation) = FetchRejected \/
   (exists response,
      net (overpassRequest userLocation) = FetchResolved response /\
      (json response = JsonSyntaxError \/ json response = JsonDocument None)) ->
   App_mount (GeolocationPosition latitude longitude) net
     = (failed, [overpassRequest userLocation]) /\
   render failed = ErrorView "Failed to fetch nearby hospitals. Please try again later.") /\
  (forall geolocation,
     error (App_mount geolocation net).1 ≠ None ->
     hospitals (App_mount geolocation net).1 = []) /\
  (forall geolocation response flag code,
     App_mount geolocation (λ _, FetchResolved response) =
     App_mount geolocation
       (λ _, FetchResolved {| ok := flag; status := code; json := json response |})).
Proof.
  intros userLocation failed. split; [|split].
  - intros Hfail. split; [|reflexivity].
    unfold App_mount, fetchNearbyHospitals, fetch. fold userLocation.
    destruct Hfail as [-> | (response & -> & Hjson)]; [reflexivity|].
    unfold response_json. cbn [mbind Outcome_bind].
    destruct Hjson as [-> | ->]; reflexivity.
  - intros [| code | lat lon |]; cbn; try congruence; try reflexivity.
    unfold fetchNearbyHospitals, fetch, response_json.
    destruct (net _) as [|response|]; cbn; try congruence; try reflexivity.
    destruct (json response) as [|elements|]; cbn; try congruence; try reflexivity.
    destruct (_ ≫= _); cbn; [congruence|reflexivity].
  - intros [| c | lat lon |] response flag code; reflexivity.
Qed.

(** C9.  When the location capability is missing or reports an error, the
    session ends in the error view with the message of that case; no request
    is issued, the hospitals list is empty and no location is set. *)
Theorem location_failure_halts (net : Network) :
  let unsupported :=
    {| location := None; hospitals := []; loading := false;
       error := Some "Geolocation is not supported by your browser"%string |} in
  let denied :=
    {| location := None; hospitals := []; loading := false;
       error := Some "Please enable location services to find nearby hospitals"%string |} in
  App_mount GeolocationUnsupported net = (unsupported, []) /\
  render unsupported = ErrorView "Geolocation is not supported by your browser" /\
  (forall code, App_mount (GeolocationError code) net = (denied, [])) /\
  render denied = ErrorView "Please enable location services to find nearby hospitals".
Proof. repeat split. Qed.

(** A request is issued only after a position was obtained, and then exactly
    one. *)
Lemma one_request_per_position (geolocation : Geolocation) (net : Network) :
  (App_mount geolocation net).2 =
  match geolocation with
  | GeolocationPosition latitude longitude =>
      [overpassRequest {| Coords.lat := latitude; Coords.lng := longitude |}]
  | _ => []
  end.
Proof. destruct geolocation; reflexivity. Qed.

End Session.

(** C8, witness: a gateway timeout whose body is not JSON. *)
Lemma query_failure_sets_error_witness :
  App_mount (H := referenceHost) (GeolocationPosition 0.01 0.01) SampleNet.gateway_timeout
  = ({| location := Some Sample.user; hospitals := []; loading := false;
        error := Some "Failed to fetch nearby hospitals. Please try again later."%string |},
     [overpassRequest Sample.user]).
Proof.
  apply (query_failure_sets_error (H := referenceHost) SampleNet.gateway_timeout 0.01 0.01).
  right. eexists. split; [reflexivity|]. left. reflexivity.
Defined.

(** C8, counterexample: a response of status 500 whose body is a well-formed
    document is processed like a success: no error, three hospitals shown. *)
Lemma non_success_response_shows_hospitals :
  let st := (App_mount (H := referenceHost) (GeolocationPosition 0.01 0.01)
               SampleNet.failing_with_document).1 in
  error st = None /\ length (hospitals st) = 3%nat /\
  exists shown, render st = ResultsView shown /\ length shown = 3%nat.
Proof. vm_compute. repeat split. eexists. split; reflexivity. Qed.

(** * Further properties

    Properties of the code beyond the claims above: the remaining behaviour
    of the distance function and of the pipeline, and the parts of [App] the
    claims do not reach ([handleGetDirections], [RecenterMap] and the page
    of results). *)

(** ** More on the order of numbers *)

Ltac compare_cases :=
  repeat match goal with
  | |- context [(?a ?= ?b)%Z] => destruct (Z.compare_spec a b)
  | |- context [Pos.compare_cont Eq ?a ?b] =>
      change (Pos.compare_cont Eq a b) with (a ?= b)%positive
  | |- context [(?a ?= ?b)%positive] => destruct (Pos.compare_spec a b)
  end.

(** [SFcompare] is a lexicographic comparison: it composes. *)
Lemma SFcompare_trans x y z c1 c2 :
  SFcompare x y = Some c1 -> SFcompare y z = Some c2 ->
  c1 <> Gt -> c2 <> Gt ->
  SFcompare x z = Some (match c1 with Eq => c2 | _ => Lt end).
Proof.
  destruct x as [sx|sx| |sx mx ex], y as [sy|sy| |sy my ey], z as [sz|sz| |sz mz ez];
    cbn [SFcompare]; try discriminate;
    intros [= <-] [= <-]; try destruct sx; try destruct sy; try destruct sz;
    try congruence; compare_cases; cbn [CompOpp]; intros; try congruence; lia.
Qed.

Lemma leb_trans (a b c : float) :
  (a <=? b) = true -> (b <=? c) = true -> (a <=? c) = true.
Proof.
  rewrite !leb_spec. unfold SFleb.
  destruct (SFcompare (Prim2SF a) (Prim2SF b)) as [c1|] eqn:H1; [|discriminate].
  destruct (SFcompare (Prim2SF b) (Prim2SF c)) as [c2|] eqn:H2; [|destruct c1; discriminate].
  intros Hc1 Hc2.
  rewrite (SFcompare_trans _ _ _ c1 c2 H1 H2) by (destruct c1, c2; congruence).
  destruct c1, c2; congruence.
Qed.

(** A number below one of two equal numbers is not equal to the other. *)
Lemma ltb_eqb_apart (y x d : float) :
  (y <? x) = true -> (x =? d) = true -> (y =? d) = false.
Proof.
  rewrite ltb_spec, !FloatAxioms.eqb_spec. unfold SFltb, SFeqb.
  destruct (SFcompare (Prim2SF y) (Prim2SF x)) as [c1|] eqn:H1; [|discriminate].
  destruct (SFcompare (Prim2SF x) (Prim2SF d)) as [c2|] eqn:H2; [|discriminate].
  intros Hc1 Hc2.
  rewrite (SFcompare_trans _ _ _ c1 c2 H1 H2) by (destruct c1, c2; congruence).
  destruct c1, c2; congruence.
Qed.

Lemma distance_le_transitive : Transitive distance_le.
Proof. intros a b c. unfold distance_le. apply leb_trans. Qed.

(** ** More on subtraction and [NaN] *)

Section SubFacts.
Local Open Scope Z_scope.

Lemma cond_Zopp_negb s z : cond_Zopp (negb s) z = - cond_Zopp s z.
Proof. destruct s; cbn; lia. Qed.

(** Negating both operands of a subtraction and swapping them leaves the
    result unchanged, signed zeros included. *)
Lemma SFsub_opp_opp x y : SF64sub (SFopp y) (SFopp x) = SF64sub x y.
Proof.
  unfold SF64sub.
  destruct x as [sx|sx| |sx mx ex], y as [sy|sy| |sy my ey];
    try reflexivity;
    try (destruct sx; try destruct sy; reflexivity);
    try (destruct sy; reflexivity).
  cbn [SFopp SFsub]. rewrite (Z.min_comm ey ex), !cond_Zopp_negb. f_equal. lia.
Qed.

End SubFacts.

Lemma sub_opp_opp (a b : float) : (- b) - (- a) = a - b.
Proof. apply Prim2SF_inj. rewrite !sub_spec, !opp_spec. apply SFsub_opp_opp. Qed.

(** There is one [NaN]. *)
Lemma is_nan_true (x : float) : is_nan x = true -> x = nan.
Proof.
  intros Hx. apply Prim2SF_inj. change (Prim2SF nan) with S754_nan.
  destruct (Prim2SF x) eqn:Hp; try reflexivity;
    assert (Hn : is_nan x = false) by (apply is_nan_spec; congruence); congruence.
Qed.

Lemma add_nan_r (x : float) : x + nan = nan.
Proof.
  apply Prim2SF_inj. rewrite add_spec. change (Prim2SF nan) with S754_nan.
  destruct (Prim2SF x); reflexivity.
Qed.

Lemma sub_nan_l (x : float) : nan - x = nan.
Proof. apply Prim2SF_inj. rewrite sub_spec. reflexivity. Qed.

Lemma sub_nan_r (x : float) : x - nan = nan.
Proof.
  apply Prim2SF_inj. rewrite sub_spec. change (Prim2SF nan) with S754_nan.
  destruct (Prim2SF x); reflexivity.
Qed.

Section NotNaN.
Local Open Scope Z_scope.

Lemma shr_fexp_nonneg m e l :
  0 <= m -> 0 <= shr_m (fst (shr_fexp prec emax m e l)).
Proof.
  intros Hm. unfold shr_fexp, shr.
  destruct (fexp prec emax (Zdigits2 m + e) - e) as [|k|k]; cbn [fst];
    rewrite ?shr_m_of_loc; try lia.
  rewrite shr_m_iter by (rewrite shr_m_of_loc; lia). rewrite shr_m_of_loc.
  apply Z.div_pos; [lia|]. apply Z.pow_pos_nonneg; lia.
Qed.

Lemma round_nearest_even_nonneg m l : 0 <= m -> 0 <= round_nearest_even m l.
Proof.
  intros Hm. destruct l as [|[]]; cbn [round_nearest_even]; try lia.
  destruct (Z.even m); lia.
Qed.

(** Rounding a mantissa that is not negative gives a number. *)
Lemma binary_round_aux_not_nan s m e l : 0 <= m -> bra s m e l <> S754_nan.
Proof.
  intros Hm. unfold binary_round_aux.
  pose proof (shr_fexp_nonneg m e l Hm) as H1.
  destruct (shr_fexp prec emax m e l) as [mrs' e']. cbn [fst] in H1.
  pose proof (round_nearest_even_nonneg _ (loc_of_shr_record mrs') H1) as H2.
  pose proof (shr_fexp_nonneg _ e' loc_Exact H2) as H3.
  destruct (shr_fexp prec emax _ e' loc_Exact) as [mrs'' e'']. cbn [fst] in H3.
  destruct (shr_m mrs''); try lia; [discriminate|].
  destruct (e'' <=? emax - prec); discriminate.
Qed.

Lemma binary_round_not_nan s m e : binary_round prec emax s m e <> S754_nan.
Proof.
  unfold binary_round. destruct (shl_align _ _ _) as [mz ez].
  apply binary_round_aux_not_nan. lia.
Qed.

Lemma binary_normalize_not_nan z e s : binary_normalize prec emax z e s <> S754_nan.
Proof.
  destruct z; cbn [binary_normalize]; [discriminate|apply binary_round_not_nan..].
Qed.

Lemma SFldexp_not_nan x e : x <> S754_nan -> SFldexp prec emax x e <> S754_nan.
Proof. destruct x; cbn [SFldexp]; auto using binary_round_not_nan. Qed.

(** The quotient of two finite numbers other than zero is a number. *)
Lemma SFdiv_finite_not_nan sx mx ex sy my ey :
  SF64div (S754_finite sx mx ex) (S754_finite sy my ey) <> S754_nan.
Proof.
  unfold SF64div. cbn [SFdiv]. unfold SFdiv_core_binary.
  set (m' := match _ with Z0 => Zpos mx | Zpos _ => _ | Zneg _ => 0 end).
  assert (Hm' : 0 <= m').
  { subst m'. destruct (_ - _ - _) as [|k|k]; try lia. apply Z.shiftl_nonneg. lia. }
  pose proof (Z.div_pos m' (Zpos my) Hm' eq_refl) as Hq.
  unfold Z.div in Hq.
  destruct (Z.div_eucl m' (Zpos my)) as [q r]. cbn [fst] in Hq.
  apply binary_round_aux_not_nan, Hq.
Qed.

End NotNaN.

Lemma SF2Prim_not_nan r : r <> S754_nan -> is_nan (SF2Prim r) = false.
Proof.
  intros Hr. destruct r as [[]|[]| |s m e]; try reflexivity; [congruence|].
  cbn [SF2Prim].
  assert (Hf : is_nan (Z.ldexp (of_uint63 (Uint63Axioms.of_Z (Zpos m))) e) = false).
  { apply is_nan_spec. rewrite Z_ldexp_spec, of_uint63_spec.
    apply SFldexp_not_nan, binary_normalize_not_nan. }
  destruct s; [rewrite is_nan_opp|]; exact Hf.
Qed.

Lemma tenths_value_not_nan (n : N) : is_nan (tenths_value n) = false.
Proof.
  destruct n as [|p]; [reflexivity|]. unfold tenths_value.
  apply SF2Prim_not_nan, SFdiv_finite_not_nan.
Qed.

Lemma is_zero_opp (x : float) : is_zero (- x) = is_zero x.
Proof.
  unfold is_zero. rewrite !FloatAxioms.eqb_spec, opp_spec.
  change (Prim2SF 0) with (S754_zero false).
  destruct (Prim2SF x) as [[]|[]| |[] m e]; reflexivity.
Qed.

Lemma Reference_cos_even (x : float) : Reference.cos (- x) = Reference.cos x.
Proof.
  unfold Reference.cos. rewrite is_nan_opp, is_infinity_opp, is_zero_opp, abs_opp.
  reflexivity.
Qed.

(** ** The distance function, continued *)

Section DistanceMore.
Context `{H : MathHost}.

(** X1.  [calculateDistance] propagates [NaN]: on a host whose sine and
    two-argument arctangent return [NaN] on a [NaN] argument (as ECMA-262
    requires), the result is [NaN] as soon as one of the four arguments
    is. *)
Theorem calculateDistance_NaN_propagates (lat1 lon1 lat2 lon2 : float) :
  Math_sin nan = nan -> (forall x, Math_atan2 nan x = nan) ->
  is_nan lat1 || is_nan lon1 || is_nan lat2 || is_nan lon2 = true ->
  calculateDistance lat1 lon1 lat2 lon2 = nan.
Proof.
  intros Hsin Hatan Hnan.
  assert (Ha : forall dLat dLon p,
    dLat = nan \/ dLon = nan ->
    Math_sin (toRad dLat / 2) * Math_sin (toRad dLat / 2) +
    p * Math_sin (toRad dLon / 2) * Math_sin (toRad dLon / 2) = nan).
  { intros dLat dLon p [-> | ->]; change (toRad nan / 2) with nan; rewrite Hsin.
    - rewrite mul_nan_l. apply add_nan_l.
    - rewrite !mul_nan_r. apply add_nan_r. }
  unfold calculateDistance. cbn zeta. rewrite Ha.
  - change (Math_sqrt nan) with nan. rewrite Hatan. reflexivity.
  - apply orb_true_iff in Hnan as [Hnan|Hnan];
      [|right; rewrite (is_nan_true _ Hnan); apply sub_nan_l].
    apply orb_true_iff in Hnan as [Hnan|Hnan];
      [|left; rewrite (is_nan_true _ Hnan); apply sub_nan_l].
    apply orb_true_iff in Hnan as [Hnan|Hnan].
    + left. rewrite (is_nan_true _ Hnan). apply sub_nan_r.
    + right. rewrite (is_nan_true _ Hnan). apply sub_nan_r.
Qed.

(** X2.  [calculateDistance] is invariant under reflection, exactly: on a
    host whose sine is odd and whose cosine is even, negating both
    longitudes, both latitudes, or all four coordinates leaves the result
    unchanged. *)
Theorem calculateDistance_mirror (lat1 lon1 lat2 lon2 : float) :
  ConformingHost H -> (forall x, Math_cos (- x) = Math_cos x) ->
  calculateDistance lat1 (- lon1) lat2 (- lon2) = calculateDistance lat1 lon1 lat2 lon2 /\
  calculateDistance (- lat1) lon1 (- lat2) lon2 = calculateDistance lat1 lon1 lat2 lon2 /\
  calculateDistance (- lat1) (- lon1) (- lat2) (- lon2) =
    calculateDistance lat1 lon1 lat2 lon2.
Proof.
  intros Hc Hcos.
  assert (Hlon : forall la1 la2,
    calculateDistance la1 (- lon1) la2 (- lon2) = calculateDistance la1 lon1 la2 lon2).
  { intros la1 la2. unfold calculateDistance. cbn zeta.
    rewrite sub_opp_opp, (half_angle_product_swap Hc _ lon2 lon1). reflexivity. }
  assert (Hlat : forall lo1 lo2,
    calculateDistance (- lat1) lo1 (- lat2) lo2 = calculateDistance lat1 lo1 lat2 lo2).
  { intros lo1 lo2. unfold calculateDistance. cbn zeta.
    rewrite sub_opp_opp, (half_angle_square_swap Hc lat2 lat1), !toRad_opp, !Hcos.
    reflexivity. }
  split; [apply Hlon|]. split; [apply Hlat|]. rewrite Hlon. apply Hlat.
Qed.

End DistanceMore.

(** X1, witness: a [NaN] latitude of the second point, on the reference
    host. *)
Lemma calculateDistance_NaN_propagates_witness :
  calculateDistance (H := referenceHost) 0.01 0.01 nan 10.5 = nan.
Proof.
  apply (calculateDistance_NaN_propagates (H := referenceHost)); reflexivity.
Defined.

(** X2, witness: Paris and London mirrored across the prime meridian, on the
    reference host. *)
Lemma calculateDistance_mirror_witness :
  calculateDistance (H := referenceHost) 48.8566 (-2.3522) 51.5074 (- -0.1278) =
  calculateDistance (H := referenceHost) 48.8566 2.3522 51.5074 (-0.1278).
Proof.
  apply (calculateDistance_mirror (H := referenceHost) 48.8566 2.3522 51.5074 (-0.1278)
           referenceHost_conforming Reference_cos_even).
Defined.

(** X3.  Rounding by [parseFloat(distance.toFixed(1))] neither produces nor
    hides a [NaN]: the rounded distance is [NaN] exactly when the distance
    is. *)
Theorem rounding_keeps_NaN_apart (d : float) :
  is_nan (parseFloat (toFixed1 d)) = is_nan d.
Proof.
  destruct (is_nan d) eqn:Hd.
  - rewrite (is_nan_true d Hd). reflexivity.
  - pose proof Hd as Hp. apply is_nan_spec in Hp. unfold toFixed1.
    destruct (Prim2SF d) as [s|s| |s m e]; cbn [parseFloat].
    + reflexivity.
    + destruct s; reflexivity.
    + congruence.
    + destruct (_ <=? abs d); cbn [parseFloat]; [exact Hd|].
      destruct s; [rewrite is_nan_opp|]; apply tenths_value_not_nan.
Qed.

(** ** The result list, continued *)

(** [.filter] after [.map] selects by the composed test. *)
Lemma filter_fmap {A B} (f : A -> B) (P : B -> Prop) `{!∀ y, Decision (P y)} (l : list A) :
  filter P (f <$> l) = f <$> filter (λ x, P (f x)) l.
Proof.
  induction l as [|x l IH]; [reflexivity|].
  rewrite fmap_cons, !filter_cons. destruct (decide (P (f x))); rewrite IH; reflexivity.
Qed.

Section SortFacts.
Context {A : Type} (comparefn : A -> A -> float).

(** Insertion passes only over the elements the comparator puts before the
    new one, so a test that fails on them selects the same subsequence as
    before the insertion. *)
Lemma filter_sort_insert (P : A -> Prop) `{!∀ y, Decision (P y)} (x : A) (l : list A) :
  (P x -> forall y, y ∈ l -> (comparefn y x <? 0) = true -> ~ P y) ->
  filter P (sort_insert comparefn x l) = filter P (x :: l).
Proof.
  intros Hx. induction l as [|y l IH]; cbn [sort_insert]; [reflexivity|].
  destruct (comparefn y x <? 0) eqn:Hc; [|reflexivity].
  rewrite filter_cons, IH by (intros Px z Hz; apply Hx; [exact Px|right; exact Hz]).
  rewrite !filter_cons.
  destruct (decide (P x)) as [Px|]; [|reflexivity].
  destruct (decide (P y)) as [Py|]; [|reflexivity].
  exfalso. apply (Hx Px y); [left|exact Hc|exact Py].
Qed.

Lemma filter_Array_sort (P : A -> Prop) `{!∀ y, Decision (P y)} (l : list A) :
  (forall x y, P x -> (comparefn y x <? 0) = true -> ~ P y) ->
  filter P (Array_sort comparefn l) = filter P l.
Proof.
  intros Hx. induction l as [|x l IH]; [reflexivity|].
  change (Array_sort comparefn (x :: l))
    with (sort_insert comparefn x (Array_sort comparefn l)).
  rewrite filter_sort_insert by (intros Px y _; apply Hx, Px).
  rewrite !filter_cons, IH. reflexivity.
Qed.

End SortFacts.

Section ResultListMore.
Context `{H : MathHost}.
Implicit Types (elements : list Raw.Element) (userLocation : Coords.t).

Lemma has_location_recordOf userLocation element :
  has_location (recordOf userLocation element) =
  truthy_opt_number (resolve_lat element) && truthy_opt_number (resolve_lng element).
Proof. reflexivity. Qed.

(** The records that reach [.sort] are the records of the qualifying
    elements, in the order of the response. *)
Lemma locatedHospitals_qualifying elements userLocation :
  locatedHospitals elements userLocation =
  Some (recordOf userLocation <$> filter (λ element, qualifies element) elements).
Proof.
  rewrite locatedHospitals_eq. f_equal.
  rewrite filter_fmap, list_filter_filter. f_equal.
  apply list_filter_iff. intros element. unfold qualifies.
  rewrite has_location_recordOf.
  destruct (has_name element), (truthy_opt_number (resolve_lat element)),
    (truthy_opt_number (resolve_lng element)); cbn; tauto.
Qed.

Lemma nearbyHospitals_qualifying elements userLocation :
  nearbyHospitals elements userLocation =
  Some (take 10 (Array_sort byDistance
    (recordOf userLocation <$> filter (λ element, qualifies element) elements))).
Proof. unfold nearbyHospitals. rewrite locatedHospitals_qualifying. reflexivity. Qed.

Lemma nearbyHospitals_submseteq elements userLocation out :
  nearbyHospitals elements userLocation = Some out ->
  out ⊆+ recordOf userLocation <$> elements.
Proof.
  rewrite nearbyHospitals_qualifying. intros [= <-].
  transitivity (Array_sort byDistance
    (recordOf userLocation <$> filter (λ element, qualifies element) elements)).
  { apply sublist_submseteq, sublist_take. }
  rewrite Array_sort_Permutation.
  apply sublist_submseteq, fmap_sublist, sublist_filter.
Qed.

(** X4.  The pipeline never throws on an array of elements, and its result
    is drawn from the response: the records returned are the records of
    distinct positions of [data.elements], so there are never more of them
    than elements, and none the response does not account for. *)
Theorem result_drawn_from_response elements userLocation :
  exists out,
    nearbyHospitals elements userLocation = Some out /\
    out ⊆+ recordOf userLocation <$> elements /\
    (length out <= length elements)%nat.
Proof.
  destruct (nearbyHospitals_located elements userLocation) as (located & _ & Hout).
  eexists. split; [exact Hout|].
  pose proof (nearbyHospitals_submseteq _ _ _ Hout) as Hsub.
  split; [exact Hsub|].
  apply submseteq_length in Hsub. rewrite length_fmap in Hsub. exact Hsub.
Qed.

(** X5.  The records that reach [.sort] are exactly the records of the
    elements with a non-empty name and two truthy resolved coordinates, in
    the order of the response, and the only records lost afterwards are
    those cut by [.slice(0, 10)]: the result holds as many records as there
    are such elements, up to 10, and when at most 10 qualify it is a
    rearrangement of their records. *)
Theorem result_count elements userLocation :
  let qualifying := filter (λ element, qualifies element) elements in
  exists out,
    locatedHospitals elements userLocation = Some (recordOf userLocation <$> qualifying) /\
    nearbyHospitals elements userLocation = Some out /\
    length out = (length qualifying `min` 10)%nat /\
    ((length qualifying <= 10)%nat -> out ≡ₚ recordOf userLocation <$> qualifying).
Proof.
  intros qualifying. eexists.
  split; [apply locatedHospitals_qualifying|].
  split; [apply nearbyHospitals_qualifying|].
  fold qualifying.
  assert (Hlen : length (Array_sort byDistance (recordOf userLocation <$> qualifying))
                 = length qualifying).
  { rewrite Array_sort_Permutation. apply length_fmap. }
  split.
  - rewrite length_take, Hlen. lia.
  - intros Hle. rewrite take_ge by (rewrite Hlen; exact Hle).
    apply Array_sort_Permutation.
Qed.

(** X6.  When every distance that reaches the sort is a number, the result
    holds the nearest records: every record left out by the cut is at least
    as far as every record returned. *)
Theorem nearest_are_returned elements userLocation located out :
  locatedHospitals elements userLocation = Some located ->
  nearbyHospitals elements userLocation = Some out ->
  Forall (λ hospital, is_nan (HospitalData.distance hospital) = false) located ->
  exists rest,
    located ≡ₚ out ++ rest /\
    forall returned dropped, returned ∈ out -> dropped ∈ rest ->
      distance_le returned dropped.
Proof.
  intros Hl Hn Hnan. unfold nearbyHospitals in Hn. rewrite Hl in Hn.
  cbn in Hn. injection Hn as <-.
  exists (drop 10 (Array_sort byDistance located)).
  rewrite take_drop. split; [symmetry; apply Array_sort_Permutation|].
  assert (Hs : StronglySorted distance_le (Array_sort byDistance located)).
  { apply (@Sorted_StronglySorted _ distance_le distance_le_transitive).
    apply Array_sort_Sorted.
    intros a b Ha Hb. rewrite Forall_forall in Hnan. apply byDistance_agrees; auto. }
  rewrite <- (take_drop 10 (Array_sort byDistance located)) in Hs.
  intros returned dropped Hr Hd.
  exact (StronglySorted_app_1_elem_of _ _ _ returned dropped Hs Hr Hd).
Qed.

(** X7.  When every distance that reaches the sort is a number, records at
    the same distance keep the order of the response: the records of the
    result at a distance [d] are the first of the located records at that
    distance, in the same order.  (With a [NaN] among the distances the
    comparator is inconsistent, and the standard leaves the order to the
    engine.) *)
Theorem ties_keep_response_order elements userLocation located out (d : float) :
  locatedHospitals elements userLocation = Some located ->
  nearbyHospitals elements userLocation = Some out ->
  Forall (λ hospital, is_nan (HospitalData.distance hospital) = false) located ->
  filter (λ hospital, HospitalData.distance hospital =? d) out
    `prefix_of` filter (λ hospital, HospitalData.distance hospital =? d) located.
Proof.
  intros Hl Hn _. unfold nearbyHospitals in Hn. rewrite Hl in Hn.
  cbn in Hn. injection Hn as <-.
  rewrite <- (filter_Array_sort byDistance _ located).
  - rewrite <- (take_drop 10 (Array_sort byDistance located)) at 2.
    rewrite filter_app. apply prefix_app_r. reflexivity.
  - intros x y Px Hlt Py. apply Is_true_true in Px, Py.
    unfold byDistance in Hlt. rewrite sub_ltb_zero in Hlt.
    rewrite (ltb_eqb_apart _ _ _ Hlt Px) in Py. discriminate.
Qed.

(** X8.  The pipeline applies no distance cut-off of its own: which elements
    reach the sort, and every field of their records but [distance], do not
    depend on the user's position. *)
Theorem selection_ignores_user_location elements userLocation userLocation' :
  exists located located',
    locatedHospitals elements userLocation = Some located /\
    locatedHospitals elements userLocation' = Some located' /\
    Forall2 (λ hospital hospital',
      HospitalData.id hospital = HospitalData.id hospital' /\
      HospitalData.name hospital = HospitalData.name hospital' /\
      HospitalData.address hospital = HospitalData.address hospital' /\
      HospitalData.phone hospital = HospitalData.phone hospital' /\
      HospitalData.emergency hospital = HospitalData.emergency hospital' /\
      HospitalData.location hospital = HospitalData.location hospital')
      located located'.
Proof.
  do 2 eexists. split; [apply locatedHospitals_qualifying|].
  split; [apply locatedHospitals_qualifying|].
  apply Forall2_fmap, Forall_Forall2_diag, Forall_forall.
  intros element _. repeat split.
Qed.

End ResultListMore.

(** X6, witness: of the twelve sample nodes, the two left out are no nearer
    than any of the ten returned. *)
Lemma nearest_are_returned_witness :
  exists located out rest,
    locatedHospitals (H := referenceHost) Sample.twelve Sample.user = Some located /\
    nearbyHospitals (H := referenceHost) Sample.twelve Sample.user = Some out /\
    located ≡ₚ out ++ rest /\
    forall returned dropped, returned ∈ out -> dropped ∈ rest ->
      distance_le returned dropped.
Proof.
  destruct (nearest_are_returned (H := referenceHost) Sample.twelve Sample.user _ _
              (locatedHospitals_eq _ _) (nearbyHospitals_eq _ _))
    as (rest & Hperm & Hle).
  { vm_compute. repeat constructor. }
  eexists _, _, rest.
  split; [apply locatedHospitals_eq|]. split; [apply nearbyHospitals_eq|].
  split; assumption.
Defined.

(** X7, witness: nodes 1 and 3 are both 3.9 km away; node 2, nearer, moves
    ahead of them and they keep their order. *)
Lemma ties_keep_response_order_witness :
  exists located out,
    locatedHospitals (H := referenceHost) Scenario.tied Sample.user = Some located /\
    nearbyHospitals (H := referenceHost) Scenario.tied Sample.user = Some out /\
    HospitalData.id <$> located = ["1"; "2"; "3"]%string /\
    HospitalData.id <$> out = ["2"; "1"; "3"]%string /\
    filter (λ hospital, HospitalData.distance hospital =? 3.9) out
      `prefix_of` filter (λ hospital, HospitalData.distance hospital =? 3.9) located.
Proof.
  eexists _, _.
  split; [apply locatedHospitals_eq|]. split; [apply nearbyHospitals_eq|].
  split; [vm_compute; reflexivity|]. split; [vm_compute; reflexivity|].
  apply (ties_keep_response_order (H := referenceHost) Scenario.tied Sample.user _ _ 3.9
           (locatedHospitals_eq _ _) (nearbyHospitals_eq _ _)).
  vm_compute. repeat constructor.
Defined.

(** ** The session and the page *)

Section SessionFacts.
Context `{H : MathHost}.

(** The state in which the start-up effect leaves the component when it
    obtained a position: the failure state, the state of a request that
    never completes, or the result of the pipeline on the elements of the
    response. *)
Lemma App_mount_position (net : Network) (latitude longitude : float) :
  let userLocation := {| Coords.lat := latitude; Coords.lng := longitude |} in
  let st := (App_mount (GeolocationPosition latitude longitude) net).1 in
  (~ request_pending net userLocation /\
   st = {| location := Some userLocation; hospitals := []; loading := false;
           error := Some "Failed to fetch nearby hospitals. Please try again later."%string |}) \/
  (request_pending net userLocation /\
   st = {| location := Some userLocation; hospitals := []; loading := true;
           error := None |}) \/
  exists response elements out,
    net (overpassRequest userLocation) = FetchResolved response /\
    json response = JsonDocument (Some elements) /\
    nearbyHospitals elements userLocation = Some out /\
    st = {| location := Some userLocation; hospitals := out; loading := false;
            error := None |}.
Proof.
  intros userLocation st. subst st.
  unfold request_pending, App_mount, fetchNearbyHospitals, fetch, response_json.
  fold userLocation.
  destruct (net (overpassRequest userLocation)) as [|response|] eqn:Hnet;
    cbn [mbind Outcome_bind].
  - left. split; [|reflexivity]. intros [Hp | (response & Hp & _)]; discriminate.
  - destruct (json response) as [|[elements|]|] eqn:Hjson; cbn [mbind Outcome_bind].
    + left. split; [|reflexivity].
      intros [Hp | (response' & [= <-] & Hp)]; congruence.
    + destruct (nearbyHospitals elements userLocation) as [out|] eqn:Hout.
      * right. right. exists response, elements, out. cbn. rewrite Hout. auto.
      * left. split; [|cbn; rewrite Hout; reflexivity].
        intros [Hp | (response' & [= <-] & Hp)]; congruence.
    + left. split; [|reflexivity].
      intros [Hp | (response' & [= <-] & Hp)]; congruence.
    + right. left. split; [|reflexivity]. right. eauto.
  - right. left. split; [|reflexivity]. left. reflexivity.
Qed.

(** Hospitals are listed only after a position was obtained and the
    pipeline ran on the elements of the response. *)
Lemma App_mount_hospitals (geolocation : Geolocation) (net : Network) hospital :
  hospital ∈ hospitals (App_mount geolocation net).1 ->
  exists latitude longitude response elements,
    let userLocation := {| Coords.lat := latitude; Coords.lng := longitude |} in
    geolocation = GeolocationPosition latitude longitude /\
    net (overpassRequest userLocation) = FetchResolved response /\
    json response = JsonDocument (Some elements) /\
    nearbyHospitals elements userLocation = Some (hospitals (App_mount geolocation net).1) /\
    location (App_mount geolocation net).1 = Some userLocation /\
    loading (App_mount geolocation net).1 = false /\
    error (App_mount geolocation net).1 = None.
Proof.
  destruct geolocation as [|code|latitude longitude|]; try (cbn; intros Hin; inversion Hin; fail).
  destruct (App_mount_position net latitude longitude)
    as [[_ ->] | [[_ ->] | (response & elements & out & Hnet & Hjson & Hout & ->)]].
  - cbn. intros Hin. inversion Hin.
  - cbn. intros Hin. inversion Hin.
  - intros _. exists latitude, longitude, response, elements. cbn. repeat split; auto.
Qed.

(** X9.  The loading screen remains exactly when the start-up effect never
    gets its answers: neither geolocation callback ever runs, or a position
    was obtained and the promise of [fetch] or of [response.json()] never
    settles (the code sets no timeout).  The effect issues at most one
    request, and only after a position was obtained: a POST to the Overpass
    interpreter for the radius 20000 around that position.  It never lists
    more than 10 hospitals, and lists any only with no error and with the
    location set. *)
Theorem startup_settles (geolocation : Geolocation) (net : Network) :
  let st := (App_mount geolocation net).1 in
  let requests := (App_mount geolocation net).2 in
  let waiting :=
    geolocation = GeolocationPending \/
    exists latitude longitude,
      geolocation = GeolocationPosition latitude longitude /\
      request_pending net {| Coords.lat := latitude; Coords.lng := longitude |} in
  (App_return st = LoadingScreen "Finding nearby hospitals..." <-> waiting) /\
  (loading st = true <-> waiting) /\
  (requests = [] \/
   exists latitude longitude,
     geolocation = GeolocationPosition latitude longitude /\
     requests =
       [{| url := "https://overpass-api.de/api/interpreter"; method := "POST";
           radius := 20000;
           around := {| Coords.lat := latitude; Coords.lng := longitude |} |}]) /\
  (length (hospitals st) <= 10)%nat /\
  (hospitals st <> [] -> error st = None /\ is_Some (location st)).
Proof.
  cbn zeta.
  destruct geolocation as [|code|latitude longitude|].
  - cbn. repeat split; try discriminate; try lia; auto; try congruence;
      intros [Hg | (la & lo & Hg & _)]; discriminate.
  - cbn. repeat split; try discriminate; try lia; auto; try congruence;
      intros [Hg | (la & lo & Hg & _)]; discriminate.
  - assert (Hreq : (App_mount (GeolocationPosition latitude longitude) net).2 =
                   [overpassRequest {| Coords.lat := latitude; Coords.lng := longitude |}])
      by reflexivity.
    rewrite Hreq.
    assert (Hno : ~ request_pending net {| Coords.lat := latitude; Coords.lng := longitude |} ->
      ~ (GeolocationPosition latitude longitude = GeolocationPending \/
         exists la lo,
           GeolocationPosition latitude longitude = GeolocationPosition la lo /\
           request_pending net {| Coords.lat := la; Coords.lng := lo |})).
    { intros Hn [Hg | (la & lo & [= <- <-] & Hp)]; [discriminate|]. exact (Hn Hp). }
    destruct (App_mount_position net latitude longitude)
      as [[Hn ->] | [[Hp ->] | (response & elements & out & Hnet & Hjson & Hout & ->)]].
    + apply Hno in Hn. cbn.
      repeat split; try discriminate; try lia; try congruence; try tauto.
      right. eauto.
    + cbn. repeat split; try discriminate; try lia; try congruence; eauto 6.
    + assert (Hn : ~ request_pending net {| Coords.lat := latitude; Coords.lng := longitude |}).
      { intros [Hp | (response' & Hr & Hp)]; congruence. }
      apply Hno in Hn. cbn [hospitals error location loading].
      rewrite nearbyHospitals_eq in Hout. injection Hout as <-.
      repeat split; try discriminate; try congruence; try tauto; eauto.
      rewrite length_take. lia.
  - cbn. repeat split; try discriminate; try lia; auto; congruence.
Qed.

(** X10.  A response without a single qualifying element (an empty
    [elements] array included) is not an error: the session ends in the
    results page with no card, no error message, and the user's marker
    alone on the map. *)
Theorem no_results_is_not_an_error (net : Network) (latitude longitude : float)
    (response : Response) (elements : list Raw.Element) :
  let userLocation := {| Coords.lat := latitude; Coords.lng := longitude |} in
  let st := (App_mount (GeolocationPosition latitude longitude) net).1 in
  net (overpassRequest userLocation) = FetchResolved response ->
  json response = JsonDocument (Some elements) ->
  Forall (λ element, qualifies element = false) elements ->
  st = {| location := Some userLocation; hospitals := []; loading := false; error := None |} /\
  exists page,
    App_return st = ResultsScreen page /\ Page.cards page = [] /\
    MapContainer.markers <$> Page.mapContainer page =
      Some [{| Marker.key := None;
               Marker.position := (Some latitude, Some longitude);
               Marker.popup := PopupYourLocation |}].
Proof.
  intros userLocation st Hnet Hjson Hnone.
  assert (Hst : st = {| location := Some userLocation; hospitals := [];
                        loading := false; error := None |}).
  { subst st. unfold App_mount, fetchNearbyHospitals, fetch, response_json.
    fold userLocation. rewrite Hnet. cbn [mbind Outcome_bind]. rewrite Hjson.
    cbn [mbind Outcome_bind option_bind]. rewrite nearbyHospitals_qualifying.
    replace (filter (λ element, qualifies element) elements) with (@nil Raw.Element);
      [reflexivity|].
    clear -Hnone. induction Hnone as [|element elements He _ IH]; [reflexivity|].
    rewrite filter_cons, <- IH.
    destruct (decide _) as [Hq|]; [|reflexivity].
    apply Is_true_true in Hq. congruence. }
  split; [exact Hst|]. rewrite Hst. eexists. split; [reflexivity|].
  split; reflexivity.
Qed.

(** X11.  For every hospital listed after start-up, [handleGetDirections]
    opens exactly one window, with target [_blank], on the directions
    address from the position obtained to the hospital's coordinates, which
    are two numbers other than 0 and [NaN]: the address never holds
    "undefined" or "NaN". *)
Theorem directions_lead_from_user_to_hospital (geolocation : Geolocation) (net : Network)
    (hospital : HospitalData.t) :
  let st := (App_mount geolocation net).1 in
  hospital ∈ hospitals st ->
  exists latitude longitude x y,
    geolocation = GeolocationPosition latitude longitude /\
    truthy_number x = true /\ truthy_number y = true /\
    HospitalData.location hospital =
      {| HospitalData.lat := Some x; HospitalData.lng := Some y |} /\
    handleGetDirections st hospital =
      [{| open_url :=
            [TemplateText "https://www.openstreetmap.org/directions?from=";
             TemplateNumber (Some latitude); TemplateText ",";
             TemplateNumber (Some longitude); TemplateText "&to=";
             TemplateNumber (Some x); TemplateText ","; TemplateNumber (Some y)];
          open_target := "_blank" |}].
Proof.
  intros st Hin. subst st.
  destruct (App_mount_hospitals _ _ _ Hin)
    as (latitude & longitude & response & elements & -> & _ & _ & Hout & Hloc & _).
  destruct (elem_of_nearbyHospitals _ _ _ _ Hout Hin) as (_ & _ & _ & _ & _ & _ & Hhas).
  destruct (has_location_coordinates _ Hhas) as (x & y & Hxy & Hx & Hy).
  exists latitude, longitude, x, y.
  repeat split; auto.
  unfold handleGetDirections. rewrite Hloc, Hxy. reflexivity.
Qed.


(** X13.  Whenever the start-up effect ends in the results page, a position
    was obtained and the map is on the page: centred on that position at
    zoom 13, which is also the view [RecenterMap] sets, with the user's
    marker followed by one marker per card, at most 11 markers in all, each
    hospital marker at two coordinates other than 0 and [NaN]. *)
Theorem results_page_map (geolocation : Geolocation) (net : Network) (page : Page.t) :
  let st := (App_mount geolocation net).1 in
  App_return st = ResultsScreen page ->
  exists latitude longitude map,
    geolocation = GeolocationPosition latitude longitude /\
    error st = None /\
    Page.usingCurrentLocation page = true /\
    Page.mapContainer page = Some map /\
    MapContainer.center map = (latitude, longitude) /\
    MapContainer.zoom map = 13%Z /\
    MapContainer.recenter map =
      {| view_center := MapContainer.center map; view_zoom := MapContainer.zoom map |} /\
    MapContainer.markers map =
      {| Marker.key := None; Marker.position := (Some latitude, Some longitude);
         Marker.popup := PopupYourLocation |} :: (hospitalMarker <$> hospitals st) /\
    (length (MapContainer.markers map) = S (length (Page.cards page))) /\
    (length (MapContainer.markers map) <= 11)%nat /\
    Forall (λ marker, exists x y,
              Marker.position marker = (Some x, Some y) /\
              truthy_number x = true /\ truthy_number y = true)
      (hospitalMarker <$> hospitals st).
Proof.
  intros st. subst st.
  destruct geolocation as [|code|latitude longitude|]; try (cbn; discriminate).
  destruct (App_mount_position net latitude longitude)
    as [[_ ->] | [[_ ->] | (response & elements & out & Hnet & Hjson & Hout & ->)]];
    [cbn; discriminate..|].
  cbn. intros [= <-]. cbn.
  exists latitude, longitude. eexists.
  do 8 (split; [reflexivity|]). cbn [MapContainer.markers length].
  rewrite !length_fmap. split; [reflexivity|]. split.
  - rewrite nearbyHospitals_eq in Hout. injection Hout as <-.
    rewrite length_take. lia.
  - apply Forall_fmap, Forall_forall. intros hospital Hin.
    destruct (elem_of_nearbyHospitals _ _ _ _ Hout Hin) as (_ & _ & _ & _ & _ & _ & Hhas).
    destruct (has_location_coordinates _ Hhas) as (x & y & Hxy & Hx & Hy).
    exists x, y. cbn. rewrite Hxy. auto.
Qed.

(** X14.  When the ids of the response are safe integers and pairwise
    distinct, the React keys of the page are pairwise distinct too: the keys
    of the cards, and the keys of the hospital markers.  (Two distinct ids
    beyond the safe integers can be read as the same number, and then give
    the same key.) *)
Theorem distinct_ids_give_distinct_keys (elements : list Raw.Element)
    (userLocation : Coords.t) (st : AppState) :
  Forall (λ element, safe_integer (Raw.id element)) elements ->
  NoDup (Raw.id <$> elements) ->
  nearbyHospitals elements userLocation = Some (hospitals st) ->
  NoDup (Card.key <$> Page.cards (resultsPage st)) /\
  NoDup (Marker.key <$> (hospitalMarker <$> hospitals st)).
Proof.
  intros _ Hids Hout.
  assert (Hsub : HospitalData.id <$> hospitals st ⊆+ pretty <$> (Raw.id <$> elements)).
  { rewrite <- list_fmap_compose.
    change (pretty ∘ Raw.id) with (HospitalData.id ∘ recordOf userLocation).
    rewrite list_fmap_compose. apply fmap_submseteq, nearbyHospitals_submseteq, Hout. }
  apply submseteq_sublist_r in Hsub as (keys & Hperm & Hsub).
  assert (Hnd : NoDup (HospitalData.id <$> hospitals st)).
  { rewrite Hperm. apply (sublist_NoDup _ _ (NoDup_fmap_2 _ _ Hids) Hsub). }
  split.
  - cbn. rewrite <- list_fmap_compose. exact Hnd.
  - rewrite <- list_fmap_compose.
    change (Marker.key ∘ hospitalMarker) with (Some ∘ HospitalData.id).
    rewrite list_fmap_compose. apply (NoDup_fmap_2 _). exact Hnd.
Qed.

End SessionFacts.

(** A request that never completes leaves the loading screen up, after one
    request, whether the answer or its body is the one that never arrives. *)
Example pending_request_keeps_loading :
  App_return (App_mount (H := referenceHost) (GeolocationPosition 0.01 0.01)
                Scenario.silent).1 = LoadingScreen "Finding nearby hospitals..." /\
  App_return (App_mount (H := referenceHost) (GeolocationPosition 0.01 0.01)
                Scenario.stalled).1 = LoadingScreen "Finding nearby hospitals..." /\
  (App_mount (H := referenceHost) (GeolocationPosition 0.01 0.01) Scenario.silent).2
    = [overpassRequest Sample.user].
Proof. repeat split. Qed.

(** X10, witness: the only element of the response is the node on the
    equator, which does not qualify. *)
Lemma no_results_is_not_an_error_witness :
  (App_mount (H := referenceHost) (GeolocationPosition 0.01 0.01)
     (Scenario.answering [Sample.equator])).1
  = {| location := Some Sample.user; hospitals := []; loading := false; error := None |}.
Proof.
  apply (no_results_is_not_an_error (H := referenceHost) (Scenario.answering [Sample.equator])
           0.01 0.01 _ [Sample.equator] eq_refl eq_refl).
  repeat constructor.
Defined.

(** X11, witness: the directions to the nearest of the three sample nodes. *)
Lemma directions_lead_from_user_to_hospital_witness :
  let st := (App_mount (H := referenceHost) (GeolocationPosition 0.01 0.01)
               (Scenario.answering Sample.nearby)).1 in
  exists latitude longitude x y,
    GeolocationPosition 0.01 0.01 = GeolocationPosition latitude longitude /\
    truthy_number x = true /\ truthy_number y = true /\
    HospitalData.location (recordOf (H := referenceHost) Sample.user (Sample.named 2 0.027 0.01)) =
      {| HospitalData.lat := Some x; HospitalData.lng := Some y |} /\
    handleGetDirections st (recordOf (H := referenceHost) Sample.user (Sample.named 2 0.027 0.01)) =
      [{| open_url :=
            [TemplateText "https://www.openstreetmap.org/directions?from=";
             TemplateNumber (Some latitude); TemplateText ",";
             TemplateNumber (Some longitude); TemplateText "&to=";
             TemplateNumber (Some x); TemplateText ","; TemplateNumber (Some y)];
          open_target := "_blank" |}].
Proof.
  apply (directions_lead_from_user_to_hospital (H := referenceHost)).
  vm_compute. left.
Defined.


(** X13, witness: the map of the three sample nodes has four markers. *)
Lemma results_page_map_witness :
  let st := (App_mount (H := referenceHost) (GeolocationPosition 0.01 0.01)
               (Scenario.answering Sample.nearby)).1 in
  exists map,
    Page.mapContainer (resultsPage st) = Some map /\
    MapContainer.center map = (0.01, 0.01) /\
    length (MapContainer.markers map) = 4%nat.
Proof.
  intros st.
  destruct (results_page_map (H := referenceHost) (GeolocationPosition 0.01 0.01)
              (Scenario.answering Sample.nearby) (resultsPage st) eq_refl)
    as (latitude & longitude & map & Hg & _ & _ & Hmap & Hcenter & _ & _ & Hmarkers & _).
  injection Hg as <- <-.
  exists map. split; [exact Hmap|]. split; [exact Hcenter|].
  rewrite Hmarkers. reflexivity.
Defined.

(** X14, witness: the three sample nodes have the ids 1, 2 and 3. *)
Lemma distinct_ids_give_distinct_keys_witness :
  let st := (App_mount (H := referenceHost) (GeolocationPosition 0.01 0.01)
               (Scenario.answering Sample.nearby)).1 in
  NoDup (Card.key <$> Page.cards (resultsPage st)) /\
  NoDup (Marker.key <$> (hospitalMarker <$> hospitals st)).
Proof.
  apply (distinct_ids_give_distinct_keys (H := referenceHost) Sample.nearby Sample.user).
  - repeat constructor; unfold safe_integer; cbn; lia.
  - apply (bool_decide_unpack _). vm_compute. reflexivity.
  - vm_compute. reflexivity.
Defined.
